(** * fillTimesheet: the month filter, the duration allocator, the row
      assembler and the CSV text of [main.js]

    The development embeds the pure core of [main.js] and states the
    properties of its specification over that embedding.

    Conventions of the embedding.
    - A JavaScript [Date] is its time value: [Some t] with [t] the number
      of milliseconds since the epoch, or [None] for an Invalid Date
      (time value NaN).
    - The local time zone is a fixed offset [tza] in milliseconds (no
      daylight-saving changes inside the period looked at).
    - A JavaScript number is a [number]: an exact rational, or one of the
      three non-finite values.  Rounding of binary64 arithmetic, overflow
      and the sign of zero are not modelled.
    - [Math.random] is a function [rnd] from the position of the call in
      the run to the value drawn there. *)

From Stdlib Require Import ZArith QArith Qround Lia Lqa List Bool.
From Stdlib Require Import String Ascii DecimalString Permutation Sorted.
From Stdlib Require DecimalPos DecimalZ.
Import ListNotations.

(* ================================================================== *)
(** * Dates (ECMAScript time values) *)
(* ================================================================== *)

Module JSDate.
Local Open Scope Z_scope.

Definition msPerDay : Z := 86400000.

(** ECMAScript [DayFromYear]: the day number of 1 January of year [y]. *)
Definition DayFromYear (y : Z) : Z :=
  365 * (y - 1970) + (y - 1969) / 4 - (y - 1901) / 100 + (y - 1601) / 400.

Definition InLeapYear (y : Z) : bool :=
  if negb (y mod 4 =? 0) then false
  else if negb (y mod 100 =? 0) then true
  else (y mod 400 =? 0).

(** Day within the year at which month [mn] (0 = January) starts. *)
Definition monthStart (leap : bool) (mn : Z) : Z :=
  let L := if leap then 1 else 0 in
  match mn with
  | 0 => 0
  | 1 => 31
  | 2 => 59 + L
  | 3 => 90 + L
  | 4 => 120 + L
  | 5 => 151 + L
  | 6 => 181 + L
  | 7 => 212 + L
  | 8 => 243 + L
  | 9 => 273 + L
  | 10 => 304 + L
  | _ => 334 + L
  end.

(** ECMAScript [MakeDay]: months outside 0..11 carry into the year, and
    the day of the month is added linearly, so day 0 is the day before
    the first of the month. *)
Definition MakeDay (year month date : Z) : Z :=
  let ym := year + month / 12 in
  let mn := month mod 12 in
  DayFromYear ym + monthStart (InLeapYear ym) mn + date - 1.

Definition MakeDate (day time : Z) : Z := day * msPerDay + time.

(** ECMAScript [TimeClip]: time values beyond 8.64e15 ms are NaN. *)
Definition TimeClip (t : Z) : option Z :=
  if Z.abs t <=? 8640000000000000 then Some t else None.

(** [new Date(year, month, date)]: a local time; years 0..99 mean
    1900..1999. *)
Definition Date_ymd (tza year month date : Z) : option Z :=
  let yr := if (0 <=? year) && (year <=? 99) then 1900 + year else year in
  TimeClip (MakeDate (MakeDay yr month date) 0 - tza).

(** [a >= b] and [a <= b] on two Date objects: both are converted to
    their time values, and a comparison with NaN is false. *)
Definition date_ge (a b : option Z) : bool :=
  match a, b with
  | Some x, Some y => y <=? x
  | _, _ => false
  end.

Definition date_le (a b : option Z) : bool :=
  match a, b with
  | Some x, Some y => x <=? y
  | _, _ => false
  end.

End JSDate.

(* ================================================================== *)
(** * The month filter *)
(* ================================================================== *)

Section MonthFilter.
Local Open Scope Z_scope.

(** The local time zone offset and the target month, which [main.js]
    reads once from [TARGET_DATE]. *)
Variable tza : Z.
Variables targetDatesYear targetDatesMonth : Z.

Definition startOfMonth : option Z :=
  JSDate.Date_ymd tza targetDatesYear targetDatesMonth 1.

Definition endOfMonth : option Z :=
  JSDate.Date_ymd tza targetDatesYear (targetDatesMonth + 1) 0.

Definition isCommitInMonth (commitDate : option Z) : bool :=
  JSDate.date_ge commitDate startOfMonth
  && JSDate.date_le commitDate endOfMonth.

(** The first instant of the month after the target month. *)
Definition startOfNextMonth : option Z :=
  JSDate.Date_ymd tza targetDatesYear (targetDatesMonth + 1) 1.

End MonthFilter.

(* ================================================================== *)
(** * Numbers *)
(* ================================================================== *)

Module JSNumber.

Inductive number : Type :=
| Fin (q : Q)
| PosInf
| NegInf
| NaN.

Definition sign (q : Q) : comparison := (q ?= 0)%Q.

(** The infinity with the sign of a finite operand; zero gives NaN
    (as in [0 * Infinity] and [0 / 0]). *)
Definition inf_of (c : comparison) : number :=
  match c with
  | Gt => PosInf
  | Lt => NegInf
  | Eq => NaN
  end.

Definition neg (x : number) : number :=
  match x with
  | Fin q => Fin (- q)
  | PosInf => NegInf
  | NegInf => PosInf
  | NaN => NaN
  end.

Definition add (x y : number) : number :=
  match x, y with
  | NaN, _ | _, NaN => NaN
  | Fin a, Fin b => Fin (a + b)
  | PosInf, NegInf | NegInf, PosInf => NaN
  | PosInf, _ | _, PosInf => PosInf
  | NegInf, _ | _, NegInf => NegInf
  end.

Definition sub (x y : number) : number := add x (neg y).

Definition mul (x y : number) : number :=
  match x, y with
  | NaN, _ | _, NaN => NaN
  | Fin a, Fin b => Fin (a * b)
  | Fin a, PosInf | PosInf, Fin a => inf_of (sign a)
  | Fin a, NegInf | NegInf, Fin a => inf_of (CompOpp (sign a))
  | PosInf, PosInf | NegInf, NegInf => PosInf
  | PosInf, NegInf | NegInf, PosInf => NegInf
  end.

Definition div (x y : number) : number :=
  match x, y with
  | NaN, _ | _, NaN => NaN
  | Fin a, Fin b =>
      match sign b with
      | Eq => inf_of (sign a)
      | _ => Fin (a / b)
      end
  | Fin _, (PosInf | NegInf) => Fin 0
  | PosInf, Fin b => match sign b with Lt => NegInf | _ => PosInf end
  | NegInf, Fin b => match sign b with Lt => PosInf | _ => NegInf end
  | _, _ => NaN
  end.

Definition of_nat (n : nat) : number := Fin (inject_Z (Z.of_nat n)).

(** ** [Number.prototype.toFixed(2)] *)

Definition newline : string := String "010"%char EmptyString.
Definition dquote : string := String "034"%char EmptyString.

Definition digitChar (d : Z) : ascii := ascii_of_nat (48 + Z.to_nat d).

(** The integer [n] for which [n / 100 - x] is closest to zero, the
    larger one of two: round half up, for [x >= 0]. *)
Definition roundHundredths (x : Q) : Z := Qfloor (x * 100 + (1 # 2)).

(** [n] hundredths in decimal digits, with at least one digit before the
    point and exactly two after it. *)
Definition showHundredths (n : Z) : string :=
  (NilZero.string_of_uint (N.to_uint (Z.to_N (n / 100)))
   ++ "."
   ++ String (digitChar ((n mod 100) / 10))
        (String (digitChar (n mod 10)) EmptyString))%string.

(** Values of 10^21 and more, which JavaScript prints in exponent
    notation, are printed in plain digits here. *)
Definition toFixed2 (x : number) : string :=
  match x with
  | NaN => "NaN"
  | PosInf => "Infinity"
  | NegInf => "-Infinity"
  | Fin q =>
      match sign q with
      | Lt => ("-" ++ showHundredths (roundHundredths (- q)))%string
      | _ => showHundredths (roundHundredths q)
      end
  end.

End JSNumber.

Import JSNumber.

Declare Scope num_scope.
Delimit Scope num_scope with num.
Infix "+" := add : num_scope.
Infix "-" := sub : num_scope.
Infix "*" := mul : num_scope.
Infix "/" := div : num_scope.

(* ================================================================== *)
(** * The duration allocator *)
(* ================================================================== *)

Section Allocator.

(** [rnd k] is the value of the call of [Math.random] number [k] of the
    run of [distributeTimeEvenly]: call 0 draws the total, call [i + 1]
    draws the jitter of entry [i]. *)
Variable rnd : nat -> Q.
Variable numEntries : nat.
Variables totalHours variation : number.

Definition random (k : nat) : number := Fin (rnd k).

Definition targetHours : number :=
  (totalHours + (random 0 * variation * Fin 2 - variation))%num.

Definition baseTime : number := (targetHours / of_nat numEntries)%num.

(** [Array.from({ length: numEntries }, ...)]: the callback runs once
    for each index, in increasing order. *)
Definition timeArray : list number :=
  map (fun i => (baseTime + (random (S i) * Fin 2 - Fin (1 # 2)))%num)
      (seq 0 numEntries).

(** [timeArray.reduce((a, b) => a + b, 0)] *)
Definition sum : number := fold_left (fun a b => (a + b)%num) timeArray (Fin 0).

Definition adjustmentFactor : number := (targetHours / sum)%num.

(** The scaled durations, before [toFixed(2)]. *)
Definition adjustedTimes : list number :=
  map (fun time => (time * adjustmentFactor)%num) timeArray.

Definition distributeTimeEvenly : list string :=
  map toFixed2 adjustedTimes.

End Allocator.

(** The sum of a list of numbers, as [reduce] computes it. *)
Definition total (l : list number) : number :=
  fold_left (fun a b => (a + b)%num) l (Fin 0).

(** ** The same quantities as rationals, for finite inputs *)

Section AllocatorRationals.
Local Open Scope Q_scope.

Variable rnd : nat -> Q.
Variable n : nat.
Variables T v : Q.

Definition effectiveTotal : Q := T + (rnd 0%nat * v * 2 - v).

Definition roughTimes : list Q :=
  map (fun i => effectiveTotal / inject_Z (Z.of_nat n)
                + (rnd (S i) * 2 - (1 # 2)))
      (seq 0 n).

End AllocatorRationals.

Definition Qsum (l : list Q) : Q := fold_left Qplus l 0%Q.

(** Draws used in the examples. *)
Definition zeroDraws : nat -> Q := fun _ => 0%Q.

Definition drawsOf (l : list Q) : nat -> Q := fun k => nth k l 0%Q.

(* ================================================================== *)
(** * Entries, rows and configuration *)
(* ================================================================== *)

(** An entry is built by [getCommits] or [getGithubReviews] only for a
    record that passed [isCommitInMonth], which is false for an Invalid
    Date; so [rawDate] is a time value. [date] is the text that
    [localizeDate] made of it. *)
Module Commit.
Record t : Type := mk {
  project : string;
  rawDate : Z;
  date : string;
  message : string;
  author : string
}.
End Commit.

Module Review.
Record t : Type := mk {
  repo : string;
  rawDate : Z;
  date : string;
  pullRequest : string;
  reviewComment : string
}.
End Review.

Module Row.
Record t : Type := mk {
  data : string;
  date : Z
}.
End Row.

(** One entry of [log.all], with [date] the value of
    [new Date(commit.date)]. *)
Module LogEntry.
Record t : Type := mk {
  date : option Z;
  message : string;
  author_name : string
}.
End LogEntry.

Module Config.
Definition reviewComment : string := "Analyzed Pull Request and added comments".
Definition commitComment : string := "Worked on project and PBI associated".
Definition totalHours : number := Fin 160.
Definition allowedVariation : number := Fin 5.
End Config.

(* ================================================================== *)
(** * Array helpers *)
(* ================================================================== *)

Section Arrays.
Context {A B : Type}.

(** The position that [Array.prototype.at] reads: a negative index
    counts from the end, and [-0] is [0]. *)
Definition atIndex (len : nat) (index : Z) : option nat :=
  let k := if (0 <=? index)%Z then index else (Z.of_nat len + index)%Z in
  if ((k <? 0) || (Z.of_nat len <=? k))%Z then None else Some (Z.to_nat k).

Definition at_ (l : list A) (index : Z) : option A :=
  match atIndex (List.length l) index with
  | Some k => nth_error l k
  | None => None
  end.

(** [l.map((x, i) => f x i)] *)
Fixpoint mapi_from (f : A -> nat -> B) (i : nat) (l : list A) : list B :=
  match l with
  | [] => []
  | x :: l' => f x i :: mapi_from f (S i) l'
  end.

Definition mapi (f : A -> nat -> B) (l : list A) : list B := mapi_from f 0 l.

(** [Array.prototype.sort] is stable; with a comparator that orders by a
    key its result is the one stable ordering, which insertion from the
    right computes as well. *)
Fixpoint insert (cmp : A -> A -> Z) (x : A) (l : list A) : list A :=
  match l with
  | [] => [x]
  | y :: l' => if (cmp x y <=? 0)%Z then x :: y :: l' else y :: insert cmp x l'
  end.

Definition sort (cmp : A -> A -> Z) (l : list A) : list A :=
  fold_right (insert cmp) [] l.

(** The comparator [(a, b) => key(a) - key(b)]. *)
Definition byKey (key : A -> Z) (a b : A) : Z := (key a - key b)%Z.

End Arrays.

(** [arr.includes(x)] on strings: same sequence of characters. *)
Definition includes (l : list string) (x : string) : bool :=
  existsb (String.eqb x) l.

(** A value interpolated in a template literal; [undefined] prints as
    its name. *)
Definition interpolate (o : option string) : string :=
  match o with
  | Some s => s
  | None => "undefined"
  end.

(* ================================================================== *)
(** * The row assembler and the CSV text *)
(* ================================================================== *)

Section WriteToCSV.
Local Open Scope string_scope.

Variable commits : list Commit.t.
Variable reviews : list Review.t.
Variable durations : list string.

Definition csvHeader : string :=
  "Project/Repo,Date,Commit/Review Message,Comments,Time used" ++ newline.

(** [durations.at(-i)] and [durations.at(i)], as the rows print them. *)
Definition commitDuration (i : nat) : string :=
  interpolate (at_ durations (- Z.of_nat i)).

Definition reviewDuration (i : nat) : string :=
  interpolate (at_ durations (Z.of_nat i)).

Definition commitRow (commit : Commit.t) (i : nat) : Row.t :=
  Row.mk
    (Commit.project commit ++ "," ++
     dquote ++ Commit.date commit ++ dquote ++ "," ++
     dquote ++ Commit.message commit ++ dquote ++ "," ++
     Config.commitComment ++ "," ++
     commitDuration i)
    (Commit.rawDate commit).

Definition reviewRow (review : Review.t) (i : nat) : Row.t :=
  Row.mk
    (Review.repo review ++ "," ++
     dquote ++ Review.date review ++ dquote ++ "," ++
     dquote ++ Review.pullRequest review ++ dquote ++ "," ++
     dquote ++ Config.reviewComment ++ dquote ++ "," ++
     reviewDuration i)
    (Review.rawDate review).

Definition commitRows : list Row.t := mapi commitRow commits.

Definition reviewRows : list Row.t := mapi reviewRow reviews.

Definition allRows : list Row.t :=
  sort (fun a b => (Row.date a - Row.date b)%Z) (reviewRows ++ commitRows)%list.

Definition allRowsData : string := String.concat newline (map Row.data allRows).

Definition csvContent : string := csvHeader ++ allRowsData.

(** The durations printed in the rows, reviews first, in the order of
    the entries. *)
Definition rowDurations : list string :=
  (map reviewDuration (seq 0 (List.length reviews))
   ++ map commitDuration (seq 0 (List.length commits)))%list.

End WriteToCSV.

(** [writeToCSV]: the text handed to [fs.writeFileSync]. *)
Definition writeToCSV (rnd : nat -> Q)
    (commits : list Commit.t) (reviews : list Review.t) : string :=
  let totalEntries := (List.length commits + List.length reviews)%nat in
  let durations :=
    distributeTimeEvenly rnd totalEntries
      Config.totalHours Config.allowedVariation in
  csvContent commits reviews durations.

(* ================================================================== *)
(** * Fetching and the main function *)
(* ================================================================== *)

Section FillTimesheet.

Variable tza : Z.
Variables targetDatesYear targetDatesMonth : Z.

(** [localizeDate] with its fixed options and locale: the formatter of
    the platform, taken as given. *)
Variable localizeDate : Z -> string.

(** [getCommits] on the log that the git client returned (the empty log
    when it failed).  The filter and the map of the source are fused, so
    that the entry takes the time value the filter has just accepted. *)
Definition getCommits (projectName : string) (log : list LogEntry.t)
    : list Commit.t :=
  flat_map
    (fun commit =>
       match LogEntry.date commit with
       | Some t =>
           if isCommitInMonth tza targetDatesYear targetDatesMonth (Some t)
           then [Commit.mk projectName t (localizeDate t)
                   (LogEntry.message commit) (LogEntry.author_name commit)]
           else []
       | None => []
       end)
    log.

(** [commits.filter((commit) => Config.author.includes(commit.author))] *)
Definition userCommits (author : list string) (commits : list Commit.t)
    : list Commit.t :=
  filter (fun commit => includes author (Commit.author commit)) commits.

(** The loop over [gitClients], each a project name with its log. *)
Definition allCommits (author : list string)
    (gitClients : list (string * list LogEntry.t)) : list Commit.t :=
  fold_left
    (fun acc client =>
       (acc ++ userCommits author (getCommits (fst client) (snd client)))%list)
    gitClients [].

Definition fillTimesheet (rnd : nat -> Q) (author : list string)
    (gitClients : list (string * list LogEntry.t))
    (allReviews : list Review.t) : string :=
  writeToCSV rnd (allCommits author gitClients) allReviews.

End FillTimesheet.

(** Entries used in the examples. *)
Definition exampleCommit (t : Z) (date message author : string) : Commit.t :=
  Commit.mk "timesheet" t date message author.

Definition exampleReview (t : Z) (date title : string) : Review.t :=
  Review.mk "Gwitchr/fillTimesheet" t date title "No comment".

Definition exampleDraws : nat -> Q :=
  drawsOf [1 # 2; 1 # 4; 1 # 2; 3 # 4]%Q.

(** Membership in the list of authors as the specification words it:
    some element of the list is the same string. *)
Definition allowed (author : list string) (commit : Commit.t) : bool :=
  if in_dec string_dec (Commit.author commit) author then true else false.

(** A text whose last character exists and is not a newline. *)
Definition endsWithoutNewline (s : string) : Prop :=
  exists (init : string) (c : ascii),
    s = (init ++ String c EmptyString)%string /\ c <> "010"%char.

(** A text that ends with the text [suffix]. *)
Definition endsWith (suffix s : string) : Prop :=
  exists init : string, s = (init ++ suffix)%string.

(** A list that keeps some elements of another, in their order. *)
Inductive Subseq {A : Type} : list A -> list A -> Prop :=
| Subseq_nil : Subseq [] []
| Subseq_keep (x : A) (l1 l2 : list A) : Subseq l1 l2 -> Subseq (x :: l1) (x :: l2)
| Subseq_drop (x : A) (l1 l2 : list A) : Subseq l1 l2 -> Subseq l1 (x :: l2).

(* ================================================================== *)
(** * Configuration read from the environment *)
(* ================================================================== *)

(** [s.split(sep)] for a separator of one character: the pieces of [s]
    between the occurrences of [sep]; a string without [sep], the empty
    one included, is its own single piece. *)
Fixpoint splitOn (sep : ascii) (s : string) : list string :=
  match s with
  | EmptyString => [EmptyString]
  | String c s' =>
      if Ascii.eqb c sep then EmptyString :: splitOn sep s'
      else match splitOn sep s' with
           | [] => [String c EmptyString]
           | piece :: pieces => String c piece :: pieces
           end
  end.

(** [arr.slice(-2)]: the last two elements, or all of them when there
    are fewer. *)
Definition lastTwo {A : Type} (l : list A) : list A :=
  skipn (List.length l - 2) l.

(** Does the character occur in the string? *)
Fixpoint occurs (c : ascii) (s : string) : bool :=
  match s with
  | EmptyString => false
  | String x s' => Ascii.eqb x c || occurs c s'
  end.

(** A value thrown: [new Error(message)], or an error that the engine
    raises (a property read on [null], a method that is missing, a
    request that fails, a body that is not JSON). *)
Inductive exn : Type :=
| Error (message : string)
| TypeError
| SyntaxError.

Module ConfigEnv.

(** [process.env.GIT_AUTHORNAMES.split(",") ?? [...]], with the variable
    as [None] when it is not set: reading [split] on [undefined] raises,
    and [??] takes its right side only for [null] or [undefined]. *)
Definition defaultAuthor : list string :=
  ["Luis Casillas"; "gwitchr"; "Gwitchr"]%string.

Definition nullish {A : Type} (x : option A) (fallback : A) : A :=
  match x with
  | Some a => a
  | None => fallback
  end.

Definition author (GIT_AUTHORNAMES : option string) : exn + list string :=
  match GIT_AUTHORNAMES with
  | None => inl TypeError
  | Some names => inr (nullish (Some (splitOn "," names)) defaultAuthor)
  end.

(** [process.env.AUTHOR ?? "Luis Casillas"] *)
Definition name (AUTHOR : option string) : string :=
  nullish AUTHOR "Luis Casillas"%string.

(** An integer in a template literal: its decimal digits, after a minus
    sign when it is negative. *)
Definition showInt (z : Z) : string := NilZero.string_of_int (Z.to_int z).

(** [Config.output()], for the year and the month index of a valid
    target date. *)
Definition output (targetDatesYear targetDatesMonth : Z)
    (AUTHOR : option string) : string :=
  ("data/" ++ showInt targetDatesYear ++ "_"
   ++ showInt (targetDatesMonth + 1) ++ "_"
   ++ name AUTHOR ++ "_timesheet.csv")%string.

End ConfigEnv.

(* ================================================================== *)
(** * Pull requests and reviews *)
(* ================================================================== *)

(** One element of [result.items] of the search. *)
Module Item.
Record t : Type := mk {
  repository_url : string;
  number : Z;
  title : string
}.
End Item.

Module PullRequest.
Record t : Type := mk {
  repo : string;
  number : Z;
  title : string
}.
End PullRequest.

(** The response of the search request, with its decoded body. *)
Module Response.
Record t : Type := mk {
  ok : bool;
  statusText : string;
  items : list Item.t
}.
End Response.

(** One element of the reviews of a pull request: the login of
    [review.user] ([None] when [user] is [null]), the value of
    [new Date(review.submitted_at)], and [review.body] ([None] when it
    is [null]). *)
Module RawReview.
Record t : Type := mk {
  user : option string;
  submitted_at : option Z;
  body : option string
}.
End RawReview.

(** [pr.repository_url.split("/").slice(-2).join("/")] *)
Definition repoOf (repository_url : string) : string :=
  String.concat "/" (lastTwo (splitOn "/" repository_url)).

(** [searchPullRequestsAssociatedWithUser], from the response that the
    request resolved to. *)
Definition searchPullRequestsAssociatedWithUser (response : Response.t)
    : exn + list PullRequest.t :=
  if negb (Response.ok response) then
    inl (Error ("Failed to search pull requests: "
                ++ Response.statusText response)%string)
  else
    inr (map (fun pr => PullRequest.mk
                          (repoOf (Item.repository_url pr))
                          (Item.number pr)
                          (Item.title pr))
             (Response.items response)).

(** [review.body || "No comment"]: [null] and the empty string are
    falsy. *)
Definition bodyOr (body : option string) (fallback : string) : string :=
  match body with
  | None => fallback
  | Some EmptyString => fallback
  | Some text => text
  end.

Section GithubReviews.

Variable tza : Z.
Variables targetDatesYear targetDatesMonth : Z.
Variable localizeDate : Z -> string.
Variable githubUsername : string.

(** The reviews of each pull request as its request and decoding gave
    them, or what was thrown on the way (by the request, by the
    decoding, or by [forEach] on a body that is not an array). *)
Variable fetchReviews : PullRequest.t -> exn + list RawReview.t.

(** The callback of [prReviews.forEach], run on the reviews in order,
    with the array [reviews] as state: the result is the array after the
    loop and what the loop threw, if it did. *)
Fixpoint forEachReview (pr : PullRequest.t) (prReviews : list RawReview.t)
    (reviews : list Review.t) : list Review.t * option exn :=
  match prReviews with
  | [] => (reviews, None)
  | review :: rest =>
      match RawReview.user review with
      | None => (reviews, Some TypeError)
      | Some login =>
          if String.eqb login githubUsername
             && isCommitInMonth tza targetDatesYear targetDatesMonth
                  (RawReview.submitted_at review)
          then
            match RawReview.submitted_at review with
            | Some reviewDate =>
                forEachReview pr rest
                  (reviews ++
                   [Review.mk (PullRequest.repo pr) reviewDate
                      (localizeDate reviewDate) (PullRequest.title pr)
                      (bodyOr (RawReview.body review) "No comment")])
            | None => forEachReview pr rest reviews
            end
          else forEachReview pr rest reviews
      end
  end.

(** The loop over the pull requests found; the first thing thrown ends
    it. *)
Fixpoint forEachPullRequest (associatedPRs : list PullRequest.t)
    (reviews : list Review.t) : list Review.t * option exn :=
  match associatedPRs with
  | [] => (reviews, None)
  | pr :: rest =>
      match fetchReviews pr with
      | inl e => (reviews, Some e)
      | inr prReviews =>
          match forEachReview pr prReviews reviews with
          | (reviews', None) => forEachPullRequest rest reviews'
          | (reviews', Some e) => (reviews', Some e)
          end
      end
  end.

(** [getGithubReviews], from the outcome of the search: the reviews
    returned, and the error that [catch] logged, if any. *)
Definition getGithubReviews (search : exn + list PullRequest.t)
    : list Review.t * option exn :=
  match search with
  | inl e => ([], Some e)
  | inr associatedPRs => forEachPullRequest associatedPRs []
  end.

(** What a review collected from the pull request [pr] looks like. *)
Definition collected (pr : PullRequest.t) (review : Review.t) : Prop :=
  Review.repo review = PullRequest.repo pr
  /\ Review.pullRequest review = PullRequest.title pr
  /\ isCommitInMonth tza targetDatesYear targetDatesMonth
       (Some (Review.rawDate review)) = true
  /\ Review.date review = localizeDate (Review.rawDate review)
  /\ Review.reviewComment review <> EmptyString.

(** The entries that one pull request adds when nothing is thrown. *)
Definition reviewEntries (pr : PullRequest.t) (prReviews : list RawReview.t)
    : list Review.t :=
  flat_map
    (fun review =>
       match RawReview.user review, RawReview.submitted_at review with
       | Some login, Some reviewDate =>
           if String.eqb login githubUsername
              && isCommitInMonth tza targetDatesYear targetDatesMonth
                   (Some reviewDate)
           then [Review.mk (PullRequest.repo pr) reviewDate
                   (localizeDate reviewDate) (PullRequest.title pr)
                   (bodyOr (RawReview.body review) "No comment")]
           else []
       | _, _ => []
       end)
    prReviews.

End GithubReviews.

(** Pull requests and reviews used in the examples: the reviews of
    pull request 1 are fetched, those of pull request 2 are not. *)
Definition examplePR (number : Z) (title : string) : PullRequest.t :=
  PullRequest.mk "Gwitchr/fillTimesheet" number title.

Definition exampleRawReviews : list RawReview.t :=
  [RawReview.mk (Some "Gwitchr"%string) (Some 1710028800000%Z)
     (Some "Looks good"%string);
   RawReview.mk (Some "someone"%string) (Some 1710028800000%Z) None;
   RawReview.mk (Some "Gwitchr"%string) (Some 1712000000000%Z) None;
   RawReview.mk (Some "Gwitchr"%string) (Some 1710115200000%Z)
     (Some EmptyString)].

Definition exampleFetch (pr : PullRequest.t) : exn + list RawReview.t :=
  if (PullRequest.number pr =? 2)%Z then inl SyntaxError
  else if (PullRequest.number pr =? 1)%Z then inr exampleRawReviews
  else inr [].

Definition exampleFetched (pr : PullRequest.t) : list RawReview.t :=
  if (PullRequest.number pr =? 1)%Z then exampleRawReviews else [].

(* ================================================================== *)
(** * Quantities used in the statements *)
(* ================================================================== *)

(** The scaled durations as rationals, when the rough durations do not
    sum to zero. *)
Definition scaledTimes (rnd : nat -> Q) (n : nat) (T v : Q) : list Q :=
  map (fun q => (q * (effectiveTotal rnd T v
                      / Qsum (roughTimes rnd n T v)))%Q)
      (roughTimes rnd n T v).


(** The three texts that [toFixed] gives for a value that is not a
    finite number. *)
Definition notANumberText (s : string) : Prop :=
  s = "NaN"%string \/ s = "Infinity"%string \/ s = "-Infinity"%string.

(** The fields of an entry that a row prints. *)
Definition commitPrinted (commit : Commit.t) : string * string * string * Z :=
  (Commit.project commit, Commit.date commit, Commit.message commit,
   Commit.rawDate commit).

Definition reviewPrinted (review : Review.t) : string * string * string * Z :=
  (Review.repo review, Review.date review, Review.pullRequest review,
   Review.rawDate review).

(* ================================================================== *)
(** * Properties *)
(* ================================================================== *)

Section MonthFilterFacts.
Local Open Scope Z_scope.
Variable tza : Z.
Variables y m : Z.

Lemma isCommitInMonth_invalid : isCommitInMonth tza y m None = false.
Proof. reflexivity. Qed.

Lemma Date_ymd_some (yr mo d t : Z) :
  JSDate.Date_ymd tza yr mo d = Some t ->
  t = JSDate.MakeDate
        (JSDate.MakeDay
           (if (0 <=? yr) && (yr <=? 99) then 1900 + yr else yr) mo d) 0
      - tza.
Proof.
  unfold JSDate.Date_ymd, JSDate.TimeClip.
  destruct (Z.abs _ <=? _); congruence.
Qed.

(** The end bound of the filter is the midnight that opens the last day
    of the month, one whole day before the next month starts. *)
Lemma endOfMonth_is_last_midnight (e n : Z) :
  endOfMonth tza y m = Some e ->
  startOfNextMonth tza y m = Some n ->
  e = n - JSDate.msPerDay.
Proof.
  unfold endOfMonth, startOfNextMonth. intros He Hn.
  apply Date_ymd_some in He. apply Date_ymd_some in Hn. subst e n.
  unfold JSDate.MakeDate, JSDate.MakeDay, JSDate.msPerDay. lia.
Qed.

(** *** The length of a year and of a month *)

Lemma div_step (k c x : Z) :
  0 < k ->
  (x + 1 - c) / k - (x - c) / k = if (x + 1 - c) mod k =? 0 then 1 else 0.
Proof.
  intros Hk.
  pose proof (Z.div_mod (x + 1 - c) k ltac:(lia)) as D1.
  pose proof (Z.div_mod (x - c) k ltac:(lia)) as D2.
  pose proof (Z.mod_pos_bound (x - c) k Hk) as B2.
  pose proof (Z.mod_pos_bound (x + 1 - c) k Hk) as B1.
  destruct (Z.eqb_spec ((x + 1 - c) mod k) 0) as [E | E].
  - rewrite E in D1. nia.
  - nia.
Qed.

Lemma mod_shift (k q x : Z) : (x - k * q) mod k = x mod k.
Proof.
  replace (x - k * q) with (x + (- q) * k) by lia. apply Z_mod_plus_full.
Qed.

Lemma year_length (x : Z) :
  JSDate.DayFromYear (x + 1) - JSDate.DayFromYear x
  = 365 + (if JSDate.InLeapYear x then 1 else 0).
Proof.
  unfold JSDate.DayFromYear, JSDate.InLeapYear.
  pose proof (div_step 4 1969 x ltac:(lia)) as H4.
  pose proof (div_step 100 1901 x ltac:(lia)) as H100.
  pose proof (div_step 400 1601 x ltac:(lia)) as H400.
  replace (x + 1 - 1969) with (x - 4 * 492) in H4 by lia.
  replace (x + 1 - 1901) with (x - 100 * 19) in H100 by lia.
  replace (x + 1 - 1601) with (x - 400 * 4) in H400 by lia.
  rewrite mod_shift in H4, H100, H400.
  replace (x + 1 - 1969) with (x - 4 * 492) by lia.
  replace (x + 1 - 1901) with (x - 100 * 19) by lia.
  replace (x + 1 - 1601) with (x - 400 * 4) by lia.
  assert (M4 : x mod 4 = (x mod 100) mod 4)
    by (symmetry; apply Z.mod_mod_divide; exists 25; lia).
  assert (M100 : x mod 100 = (x mod 400) mod 100)
    by (symmetry; apply Z.mod_mod_divide; exists 4; lia).
  destruct (Z.eqb_spec (x mod 4) 0) as [E4 | E4];
    destruct (Z.eqb_spec (x mod 100) 0) as [E100 | E100];
    destruct (Z.eqb_spec (x mod 400) 0) as [E400 | E400];
    cbn [negb]; cbv iota;
    try (rewrite E400 in M100; cbn in M100; lia);
    try (rewrite E100 in M4; cbn in M4; lia);
    lia.
Qed.

(** From the first day of a month to the day before the next month
    there are at least 27 days. *)
Lemma month_span (yr mo : Z) :
  0 <= mo <= 11 ->
  27 <= JSDate.MakeDay yr (mo + 1) 0 - JSDate.MakeDay yr mo 1.
Proof.
  intros Hmo. unfold JSDate.MakeDay.
  assert (Hcase : mo = 0 \/ mo = 1 \/ mo = 2 \/ mo = 3 \/ mo = 4 \/ mo = 5 \/
                  mo = 6 \/ mo = 7 \/ mo = 8 \/ mo = 9 \/ mo = 10 \/ mo = 11)
    by lia.
  destruct Hcase as [-> | [-> | [-> | [-> | [-> | [-> | [-> | [-> | [-> |
                    [-> | [-> | ->]]]]]]]]]]].
  all: repeat match goal with
       | |- context [?a / 12] =>
           let r := eval vm_compute in (a / 12) in change (a / 12) with r
       | |- context [?a mod 12] =>
           let r := eval vm_compute in (a mod 12) in change (a mod 12) with r
       end.
  all: rewrite ?Z.add_0_r.
  all: try (destruct (JSDate.InLeapYear yr); cbn [JSDate.monthStart]; lia).
  pose proof (year_length yr) as HY.
  destruct (JSDate.InLeapYear yr), (JSDate.InLeapYear (yr + 1));
    cbn [JSDate.monthStart]; lia.
Qed.

Lemma first_instant_included (s e : Z) :
  0 <= m <= 11 ->
  startOfMonth tza y m = Some s ->
  endOfMonth tza y m = Some e ->
  isCommitInMonth tza y m (Some s) = true.
Proof.
  intros Hm Hs He. unfold isCommitInMonth. rewrite Hs, He. simpl.
  unfold startOfMonth in Hs. unfold endOfMonth in He.
  apply Date_ymd_some in Hs. apply Date_ymd_some in He.
  pose proof (month_span
                (if (0 <=? y) && (y <=? 99) then 1900 + y else y) m Hm) as HS.
  unfold JSDate.MakeDate, JSDate.msPerDay in Hs, He.
  apply andb_true_intro. split; apply Z.leb_le; lia.
Qed.

Lemma before_first_instant_excluded (s : Z) :
  startOfMonth tza y m = Some s ->
  isCommitInMonth tza y m (Some (s - 1)) = false.
Proof.
  intros Hs. unfold isCommitInMonth. rewrite Hs. simpl.
  apply andb_false_intro1. apply Z.leb_gt. lia.
Qed.

Lemma next_month_excluded (n : Z) :
  startOfNextMonth tza y m = Some n ->
  isCommitInMonth tza y m (Some n) = false.
Proof.
  intros Hn. unfold isCommitInMonth.
  destruct (endOfMonth tza y m) as [e|] eqn:He.
  - rewrite (endOfMonth_is_last_midnight e n He Hn).
    apply andb_false_intro2. simpl. apply Z.leb_gt.
    unfold JSDate.msPerDay. lia.
  - apply andb_false_intro2. reflexivity.
Qed.

(** Every instant of the last day after its first millisecond is
    rejected, the last millisecond of the month included. *)
Lemma last_day_excluded (n t : Z) :
  startOfNextMonth tza y m = Some n ->
  n - JSDate.msPerDay < t ->
  isCommitInMonth tza y m (Some t) = false.
Proof.
  intros Hn Ht. unfold isCommitInMonth.
  destruct (endOfMonth tza y m) as [e|] eqn:He.
  - rewrite (endOfMonth_is_last_midnight e n He Hn).
    apply andb_false_intro2. simpl. apply Z.leb_gt. lia.
  - apply andb_false_intro2. reflexivity.
Qed.

End MonthFilterFacts.

(** C1 (evaluation of the code): with the target month March 2024 and
    the zone at UTC, March starts at 1709251200000 ms and April at
    1711929600000 ms, so 1711929599999 is the last millisecond of March;
    [isCommitInMonth] rejects it, and it rejects noon of 31 March too,
    because its end bound is 31 March 00:00:00.000. *)
Theorem isCommitInMonth_rejects_last_instant_of_march_2024 :
  startOfMonth 0 2024 2 = Some 1709251200000%Z /\
  startOfNextMonth 0 2024 2 = Some 1711929600000%Z /\
  endOfMonth 0 2024 2 = Some 1711843200000%Z /\
  isCommitInMonth 0 2024 2 (Some 1711929599999%Z) = false /\
  isCommitInMonth 0 2024 2 (Some 1711886400000%Z) = false /\
  isCommitInMonth 0 2024 2 (Some 1711843200000%Z) = true.
Proof. vm_compute. repeat split. Qed.


(* ------------------------------------------------------------------ *)
(** ** The duration allocator *)

Section AllocatorFacts.
Local Open Scope Q_scope.

Variable rnd : nat -> Q.
Variable n : nat.
Variables T v : Q.

Lemma targetHours_fin :
  targetHours rnd (Fin T) (Fin v) = Fin (effectiveTotal rnd T v).
Proof. reflexivity. Qed.

Lemma sign_of_nat_pos : (1 <= n)%nat -> sign (inject_Z (Z.of_nat n)) = Gt.
Proof.
  intros Hn. unfold sign. apply Qgt_alt.
  unfold Qlt. simpl. lia.
Qed.

Lemma baseTime_fin :
  (1 <= n)%nat ->
  baseTime rnd n (Fin T) (Fin v)
  = Fin (effectiveTotal rnd T v / inject_Z (Z.of_nat n)).
Proof.
  intros Hn. unfold baseTime. rewrite targetHours_fin.
  unfold of_nat, div. rewrite (sign_of_nat_pos Hn). reflexivity.
Qed.

Lemma timeArray_fin :
  (1 <= n)%nat ->
  timeArray rnd n (Fin T) (Fin v) = map Fin (roughTimes rnd n T v).
Proof.
  intros Hn. unfold timeArray, roughTimes. rewrite (baseTime_fin Hn).
  rewrite map_map. reflexivity.
Qed.

Lemma roughTimes_length : List.length (roughTimes rnd n T v) = n.
Proof. unfold roughTimes. rewrite length_map, length_seq. reflexivity. Qed.

End AllocatorFacts.

Lemma fold_add_fin (l : list Q) (a : Q) :
  fold_left (fun x y => (x + y)%num) (map Fin l) (Fin a)
  = Fin (fold_left Qplus l a).
Proof.
  revert a. induction l as [|q l IH]; intros a; simpl.
  - reflexivity.
  - apply IH.
Qed.

Lemma total_fin (l : list Q) : total (map Fin l) = Fin (Qsum l).
Proof. apply fold_add_fin. Qed.

Lemma fold_Qplus_acc (l : list Q) (a : Q) :
  (fold_left Qplus l a == a + Qsum l)%Q.
Proof.
  unfold Qsum. revert a. induction l as [|q l IH]; intros a; simpl.
  - ring.
  - rewrite (IH (a + q)%Q), (IH (0 + q)%Q). ring.
Qed.

Lemma Qsum_cons (q : Q) (l : list Q) : (Qsum (q :: l) == q + Qsum l)%Q.
Proof.
  unfold Qsum at 1. simpl. rewrite fold_Qplus_acc. ring.
Qed.


Lemma sum_fin (rnd : nat -> Q) (n : nat) (T v : Q) :
  (1 <= n)%nat ->
  sum rnd n (Fin T) (Fin v) = Fin (Qsum (roughTimes rnd n T v)).
Proof.
  intros Hn. unfold sum. rewrite (timeArray_fin rnd n T v Hn).
  apply fold_add_fin.
Qed.

Lemma adjustedTimes_fin (rnd : nat -> Q) (n : nat) (T v : Q) :
  (1 <= n)%nat ->
  ~ (Qsum (roughTimes rnd n T v) == 0)%Q ->
  adjustedTimes rnd n (Fin T) (Fin v)
  = map Fin
      (map (fun q => (q * (effectiveTotal rnd T v
                           / Qsum (roughTimes rnd n T v)))%Q)
           (roughTimes rnd n T v)).
Proof.
  intros Hn Hs. unfold adjustedTimes, adjustmentFactor.
  rewrite (sum_fin rnd n T v Hn), targetHours_fin, (timeArray_fin rnd n T v Hn).
  unfold div, sign.
  destruct (Qsum (roughTimes rnd n T v) ?= 0)%Q eqn:E.
  - apply Qeq_alt in E. contradiction.
  - rewrite !map_map. reflexivity.
  - rewrite !map_map. reflexivity.
Qed.

(** *** Bounds on the rough durations *)

Lemma inject_nat_succ (k : nat) :
  (inject_Z (Z.of_nat (S k)) == inject_Z (Z.of_nat k) + 1)%Q.
Proof.
  rewrite Nat2Z.inj_succ. unfold Z.succ. rewrite inject_Z_plus. reflexivity.
Qed.

Lemma inject_nat_pos (k : nat) : (1 <= k)%nat -> (1 <= inject_Z (Z.of_nat k))%Q.
Proof.
  intros Hk. change 1%Q with (inject_Z 1). rewrite <- Zle_Qle. lia.
Qed.

Lemma Qsum_bounds (lo hi : Q) (l : list Q) :
  Forall (fun q => lo <= q <= hi)%Q l ->
  (inject_Z (Z.of_nat (List.length l)) * lo <= Qsum l
   /\ Qsum l <= inject_Z (Z.of_nat (List.length l)) * hi)%Q.
Proof.
  induction 1 as [|q l Hq _ IH].
  - cbn [List.length Z.of_nat]. change (inject_Z 0) with 0%Q.
    unfold Qsum; cbn [fold_left]. split; lra.
  - cbn [List.length]. rewrite Qsum_cons, inject_nat_succ.
    destruct IH as [IH1 IH2]. destruct Hq as [Hq1 Hq2]. split; lra.
Qed.

Section RoughBounds.
Local Open Scope Q_scope.

Variable rnd : nat -> Q.
Variable n : nat.
Variables T v : Q.
Hypothesis rnd_range : forall k, 0 <= rnd k < 1.
Hypothesis n_pos : (1 <= n)%nat.

Lemma roughTimes_range :
  Forall (fun q =>
            effectiveTotal rnd T v / inject_Z (Z.of_nat n) - (1 # 2) <= q
            <= effectiveTotal rnd T v / inject_Z (Z.of_nat n) + (3 # 2))
         (roughTimes rnd n T v).
Proof.
  apply Forall_forall. intros q Hq. unfold roughTimes in Hq.
  apply in_map_iff in Hq. destruct Hq as [i [<- _]].
  pose proof (rnd_range (S i)). lra.
Qed.

Lemma rough_sum_range :
  effectiveTotal rnd T v - inject_Z (Z.of_nat n) * (1 # 2)
    <= Qsum (roughTimes rnd n T v)
  /\ Qsum (roughTimes rnd n T v)
    <= effectiveTotal rnd T v + inject_Z (Z.of_nat n) * (3 # 2).
Proof.
  pose proof (Qsum_bounds _ _ _ roughTimes_range) as [B1 B2].
  rewrite roughTimes_length in B1, B2.
  pose proof (inject_nat_pos n n_pos) as HN.
  set (N := inject_Z (Z.of_nat n)) in *.
  set (H := effectiveTotal rnd T v) in *.
  assert (E : N * (H / N) == H) by (field; lra).
  split; lra.
Qed.

End RoughBounds.

(** *** C5: count preservation *)

Lemma distributeTimeEvenly_length
    (rnd : nat -> Q) (numEntries : nat) (totalHours variation : number) :
  List.length (distributeTimeEvenly rnd numEntries totalHours variation)
  = numEntries.
Proof.
  unfold distributeTimeEvenly, adjustedTimes, timeArray.
  rewrite !length_map, length_seq. reflexivity.
Qed.

(** C5: [distributeTimeEvenly] returns exactly [numEntries] values,
    whatever the draws, the total and the variation; with no entry it
    returns the empty list (its divisions by zero yield non-finite
    numbers, which are then not used). *)
Theorem distributeTimeEvenly_count
    (rnd : nat -> Q) (numEntries : nat) (totalHours variation : number) :
  List.length (distributeTimeEvenly rnd numEntries totalHours variation)
    = numEntries
  /\ distributeTimeEvenly rnd 0 totalHours variation = [].
Proof.
  split.
  - apply distributeTimeEvenly_length.
  - reflexivity.
Qed.

(** *** C3: the sum of the scaled durations *)

(** C3 (evaluation of the code): two entries, a total of 1 hour, no
    variation, every draw 0.  Both rough durations are 0, the
    adjustment factor is [1 / 0], the scaled durations are
    [0 * Infinity], the durations returned are "NaN" and "NaN", and
    their sum is not the effective total, although the comment above
    the adjustment says that it makes the times sum exactly to
    [targetHours]: the division by the sum of the rough durations has
    no guard for a zero sum. *)
Lemma sum_invariant_fails_when_rough_sum_is_zero :
  (1 <= 2)%nat /\ (0 < 1)%Q /\ (0 <= 0 < 1)%Q /\
  (forall k, 0 <= zeroDraws k < 1)%Q /\
  adjustmentFactor zeroDraws 2 (Fin 1) (Fin 0) = PosInf /\
  adjustedTimes zeroDraws 2 (Fin 1) (Fin 0) = [NaN; NaN] /\
  distributeTimeEvenly zeroDraws 2 (Fin 1) (Fin 0)
    = ["NaN"%string; "NaN"%string] /\
  ~ (exists q H,
        total (adjustedTimes zeroDraws 2 (Fin 1) (Fin 0)) = Fin q /\
        targetHours zeroDraws (Fin 1) (Fin 0) = Fin H /\
        (q == H)%Q).
Proof.
  split; [lia |].
  split; [reflexivity |].
  split; [split; [discriminate | reflexivity] |].
  split; [intros k; split; [discriminate | reflexivity] |].
  split; [reflexivity |].
  split; [reflexivity |].
  split; [reflexivity |].
  intros [q [H [Hq _]]]. vm_compute in Hq. discriminate.
Qed.

(** *** C4: positivity *)

Lemma toFixed2_nonneg (q : Q) :
  (0 <= q)%Q -> toFixed2 (Fin q) = showHundredths (roundHundredths q).
Proof.
  intros Hq. unfold toFixed2, sign.
  destruct (q ?= 0)%Q eqn:E; try reflexivity.
  apply Qlt_alt in E. lra.
Qed.

Lemma roundHundredths_lower (q : Q) (k : Z) :
  (inject_Z k <= q * 100)%Q -> (k <= roundHundredths q)%Z.
Proof.
  intros Hk. unfold roundHundredths.
  rewrite <- (Qfloor_Z k). apply Qfloor_resp_le. lra.
Qed.




(* ------------------------------------------------------------------ *)
(** ** Arrays: [at], [map] with index, [sort] *)

Section ArrayFacts.
Context {A B : Type}.

Lemma atIndex_nonneg (len i : nat) :
  (i < len)%nat -> atIndex len (Z.of_nat i) = Some i.
Proof.
  intros Hi. unfold atIndex.
  destruct (Z.leb_spec 0 (Z.of_nat i)); [| lia].
  destruct (Z.ltb_spec (Z.of_nat i) 0); [lia |].
  destruct (Z.leb_spec (Z.of_nat len) (Z.of_nat i)); [lia |].
  simpl. rewrite Nat2Z.id. reflexivity.
Qed.

Lemma atIndex_beyond (len i : nat) :
  (len <= i)%nat -> atIndex len (Z.of_nat i) = None.
Proof.
  intros Hi. unfold atIndex.
  destruct (Z.leb_spec 0 (Z.of_nat i)); [| lia].
  destruct (Z.ltb_spec (Z.of_nat i) 0); [lia |].
  destruct (Z.leb_spec (Z.of_nat len) (Z.of_nat i)); [| lia].
  reflexivity.
Qed.

(** A negative index [-i] with [1 <= i <= len] reads position
    [len - i]. *)
Lemma atIndex_from_end (len i : nat) :
  (1 <= i <= len)%nat -> atIndex len (- Z.of_nat i) = Some (len - i)%nat.
Proof.
  intros Hi. unfold atIndex.
  destruct (Z.leb_spec 0 (- Z.of_nat i)); [lia |].
  destruct (Z.ltb_spec (Z.of_nat len + - Z.of_nat i) 0); [lia |].
  destruct (Z.leb_spec (Z.of_nat len) (Z.of_nat len + - Z.of_nat i)); [lia |].
  simpl. f_equal. lia.
Qed.

Lemma atIndex_before_start (len i : nat) :
  (len < i)%nat -> atIndex len (- Z.of_nat i) = None.
Proof.
  intros Hi. unfold atIndex.
  destruct (Z.leb_spec 0 (- Z.of_nat i)); [lia |].
  destruct (Z.ltb_spec (Z.of_nat len + - Z.of_nat i) 0); [| lia].
  reflexivity.
Qed.

(** [-0] is [0]: the index of the first commit reads the front. *)
Lemma atIndex_minus_zero (len : nat) :
  atIndex len (- Z.of_nat 0) = atIndex len (Z.of_nat 0).
Proof. reflexivity. Qed.

Lemma mapi_from_map_seq (f : A -> nat -> B) (d : A) (l : list A) (i : nat) :
  mapi_from f i l
  = map (fun k => f (nth (k - i) l d) k) (seq i (List.length l)).
Proof.
  revert i. induction l as [|x l IH]; intros i; simpl.
  - reflexivity.
  - rewrite Nat.sub_diag. f_equal. rewrite IH.
    apply map_ext_in. intros k Hk. apply in_seq in Hk.
    replace (k - i)%nat with (S (k - S i)) by lia. reflexivity.
Qed.

Lemma mapi_from_length (f : A -> nat -> B) (l : list A) (i : nat) :
  List.length (mapi_from f i l) = List.length l.
Proof.
  revert i. induction l as [|x l IH]; intros i; simpl; [| rewrite IH];
    reflexivity.
Qed.

Lemma mapi_length (f : A -> nat -> B) (l : list A) :
  List.length (mapi f l) = List.length l.
Proof. apply mapi_from_length. Qed.

Lemma mapi_from_nth_error (f : A -> nat -> B) (l : list A) (i k : nat) :
  nth_error (mapi_from f i l) k
  = option_map (fun x => f x (i + k)%nat) (nth_error l k).
Proof.
  revert i k. induction l as [|x l IH]; intros i k.
  - destruct k; reflexivity.
  - destruct k as [|k]; simpl.
    + rewrite Nat.add_0_r. reflexivity.
    + rewrite IH. rewrite Nat.add_succ_r. reflexivity.
Qed.


Lemma mapi_from_In (f : A -> nat -> B) (l : list A) (i : nat) (y : B) :
  In y (mapi_from f i l) ->
  exists x k, nth_error l k = Some x /\ y = f x (i + k)%nat.
Proof.
  intros Hy. apply In_nth_error in Hy. destruct Hy as [k Hk].
  rewrite mapi_from_nth_error in Hk.
  destruct (nth_error l k) as [x|] eqn:E; [| discriminate].
  exists x, k. split; [exact E |]. simpl in Hk. congruence.
Qed.

End ArrayFacts.

Section SortFacts.
Context {A : Type}.
Variable key : A -> Z.

Lemma insert_perm (x : A) (l : list A) :
  Permutation (insert (byKey key) x l) (x :: l).
Proof.
  induction l as [|y l IH]; simpl.
  - reflexivity.
  - destruct (byKey key x y <=? 0)%Z.
    + reflexivity.
    + rewrite IH. apply perm_swap.
Qed.

Lemma sort_perm (l : list A) : Permutation (sort (byKey key) l) l.
Proof.
  induction l as [|x l IH]; simpl.
  - reflexivity.
  - rewrite insert_perm. apply perm_skip. exact IH.
Qed.

Lemma insert_sorted (x : A) (l : list A) :
  StronglySorted (fun a b => (key a <= key b)%Z) l ->
  StronglySorted (fun a b => (key a <= key b)%Z) (insert (byKey key) x l).
Proof.
  induction 1 as [|y l Hs IH Hy]; simpl.
  - constructor; constructor.
  - unfold byKey at 1. destruct (Z.leb_spec (key x - key y) 0) as [Hle | Hgt].
    + constructor.
      * constructor; assumption.
      * constructor; [lia |].
        eapply Forall_impl; [| exact Hy]. cbv beta. intros; lia.
    + constructor; [exact IH |].
      eapply Permutation_Forall.
      * symmetry. apply insert_perm.
      * constructor; [lia | exact Hy].
Qed.

Lemma sort_sorted (l : list A) :
  StronglySorted (fun a b => (key a <= key b)%Z) (sort (byKey key) l).
Proof.
  induction l as [|x l IH]; simpl.
  - constructor.
  - apply insert_sorted. exact IH.
Qed.

(** Stability: the elements of one key keep their order. *)
Lemma insert_stable (t : Z) (x : A) (l : list A) :
  filter (fun a => (key a =? t)%Z) (insert (byKey key) x l)
  = filter (fun a => (key a =? t)%Z) (x :: l).
Proof.
  induction l as [|y l IH]; simpl.
  - reflexivity.
  - unfold byKey at 1. destruct (Z.leb_spec (key x - key y) 0) as [Hle | Hgt].
    + reflexivity.
    + simpl. rewrite IH. simpl.
      destruct (Z.eqb_spec (key y) t) as [Ey | Ey];
        destruct (Z.eqb_spec (key x) t) as [Ex | Ex];
        try reflexivity.
      lia.
Qed.

Lemma sort_stable (t : Z) (l : list A) :
  filter (fun a => (key a =? t)%Z) (sort (byKey key) l)
  = filter (fun a => (key a =? t)%Z) l.
Proof.
  induction l as [|x l IH]; simpl.
  - reflexivity.
  - rewrite insert_stable. simpl. rewrite IH. reflexivity.
Qed.

End SortFacts.

(* ------------------------------------------------------------------ *)
(** ** The row assembler *)

(** *** C6: the order of the rows *)

(** C6: the assembled rows are in ascending order of their time values;
    they are the review rows and the commit rows, each once; and the
    rows of one time value are its review rows, in their order, followed
    by its commit rows, in their order. *)
Theorem allRows_sorted_reviews_first
    (commits : list Commit.t) (reviews : list Review.t)
    (durations : list string) :
  StronglySorted (fun a b => (Row.date a <= Row.date b)%Z)
    (allRows commits reviews durations)
  /\ Permutation (allRows commits reviews durations)
       (reviewRows reviews durations ++ commitRows commits durations)
  /\ forall t : Z,
       filter (fun row => (Row.date row =? t)%Z)
         (allRows commits reviews durations)
       = filter (fun row => (Row.date row =? t)%Z)
           (reviewRows reviews durations)
         ++ filter (fun row => (Row.date row =? t)%Z)
              (commitRows commits durations).
Proof.
  unfold allRows. change (fun a b => (Row.date a - Row.date b)%Z)
    with (byKey Row.date).
  split; [apply sort_sorted |].
  split; [apply sort_perm |].
  intros t. rewrite sort_stable. apply filter_app.
Qed.

(** *** The duration printed in a row *)

Section Pairing.
Local Open Scope string_scope.

Variable durations : list string.

Lemma interpolate_nth_error (k : nat) :
  interpolate (nth_error durations k) = nth k durations "undefined".
Proof.
  revert k. induction durations as [|d l IH]; intros [|k]; simpl;
    try reflexivity.
  apply IH.
Qed.

(** Review [i] prints the duration at position [i]. *)
Lemma reviewDuration_nth (i : nat) :
  reviewDuration durations i = nth i durations "undefined".
Proof.
  unfold reviewDuration, at_.
  destruct (Nat.lt_ge_cases i (List.length durations)) as [Hi | Hi].
  - rewrite (atIndex_nonneg _ _ Hi). apply interpolate_nth_error.
  - rewrite (atIndex_beyond _ _ Hi). rewrite nth_overflow by exact Hi.
    reflexivity.
Qed.

(** Commit 0 prints the duration at position 0. *)
Lemma commitDuration_zero :
  commitDuration durations 0 = nth 0 durations "undefined".
Proof. apply (reviewDuration_nth 0). Qed.

(** Commit [i], from 1 on, prints the duration [i] places before the
    end. *)
Lemma commitDuration_from_end (i : nat) :
  (1 <= i <= List.length durations)%nat ->
  commitDuration durations i
  = nth (List.length durations - i) durations "undefined".
Proof.
  intros Hi. unfold commitDuration, at_.
  rewrite (atIndex_from_end _ _ Hi). apply interpolate_nth_error.
Qed.

End Pairing.

(** *** C2: which duration a row gets *)

(** C2 (evaluation of the code): one review and two commits, with the
    three durations the allocator returns for the example draws.  The
    review prints the first duration and the second commit the last one;
    the first commit prints the first duration again, not one from the
    back, and the middle duration is printed by no row. *)
Theorem first_commit_takes_front_duration :
  let reviews := [exampleReview 1710028800000 "March 10, 2024" "Add tests"] in
  let commits :=
    [exampleCommit 1709596800000 "March 5, 2024" "first" "Alice";
     exampleCommit 1710892800000 "March 20, 2024" "second" "Alice"] in
  let durations :=
    distributeTimeEvenly exampleDraws 3
      Config.totalHours Config.allowedVariation in
  durations = ["52.84"; "53.33"; "53.83"]%string
  /\ map (reviewDuration durations) (seq 0 (List.length reviews))
     = ["52.84"]%string
  /\ map (commitDuration durations) (seq 0 (List.length commits))
     = ["52.84"; "53.83"]%string
  /\ map Row.data (commitRows commits durations)
     = [("timesheet," ++ dquote ++ "March 5, 2024" ++ dquote ++ ","
         ++ dquote ++ "first" ++ dquote
         ++ ",Worked on project and PBI associated,52.84")%string;
        ("timesheet," ++ dquote ++ "March 20, 2024" ++ dquote ++ ","
         ++ dquote ++ "second" ++ dquote
         ++ ",Worked on project and PBI associated,53.83")%string].
Proof. vm_compute. repeat split. Qed.

(** *** C10: the comment column *)



(** *** C9: the first commit and the first review share a duration *)

Section PairingPositions.
Context {A : Type}.
Variable u : A.

Lemma map_nth_seq_firstn (d : list A) (k : nat) :
  (k <= List.length d)%nat ->
  map (fun i => nth i d u) (seq 0 k) = firstn k d.
Proof.
  revert k. induction d as [|x d IH]; intros k Hk.
  - simpl in Hk. assert (k = 0%nat) by lia. subst k. reflexivity.
  - destruct k as [|k]; [reflexivity |].
    simpl in Hk. cbn [seq map firstn nth]. f_equal.
    rewrite <- seq_shift, map_map. apply IH. lia.
Qed.

Lemma map_nth_from_end (d : list A) (m : nat) :
  (m <= List.length d)%nat ->
  map (fun i => nth (List.length d - i) d u) (seq 1 m) = firstn m (rev d).
Proof.
  intros Hm. rewrite <- seq_shift, map_map.
  rewrite <- map_nth_seq_firstn by (rewrite length_rev; exact Hm).
  apply map_ext_in. intros j Hj. apply in_seq in Hj.
  rewrite rev_nth by lia. reflexivity.
Qed.

Lemma split_at_nth (d : list A) (k : nat) :
  (k < List.length d)%nat ->
  d = (firstn k d ++ nth k d u :: skipn (S k) d)%list.
Proof.
  revert k. induction d as [|x d IH]; intros k Hk.
  - simpl in Hk. lia.
  - destruct k as [|k].
    + reflexivity.
    + simpl in Hk. cbn [firstn nth skipn app]. f_equal. apply IH. lia.
Qed.

End PairingPositions.

Lemma perm_cons_same_tail (a b : string) (X : list string) :
  Permutation (a :: X) (b :: X) -> a = b.
Proof.
  intros HP.
  pose proof (Permutation_count_occ string_dec (a :: X) (b :: X)) as [HC _].
  specialize (HC HP a). simpl in HC.
  destruct (string_dec a a) as [_ | Ha]; [| contradiction].
  destruct (string_dec b a) as [Hb | Hb]; [symmetry; exact Hb | lia].
Qed.

Section SharedDuration.
Local Open Scope string_scope.

Variable commits : list Commit.t.
Variable reviews : list Review.t.
Variable durations : list string.

(** The durations printed are the first one and all but the one at the
    position of the number of reviews. *)
Lemma rowDurations_perm :
  (1 <= List.length commits)%nat ->
  List.length durations = (List.length commits + List.length reviews)%nat ->
  Permutation (rowDurations commits reviews durations)
    (nth 0 durations "undefined"
     :: firstn (List.length reviews) durations
        ++ skipn (S (List.length reviews)) durations)%list.
Proof.
  intros some_commit one_duration_each.
  unfold rowDurations.
  rewrite (map_ext _ _ (reviewDuration_nth durations)).
  rewrite map_nth_seq_firstn by lia.
  destruct (List.length commits) as [|c] eqn:EC; [lia |].
  cbn [seq map]. rewrite commitDuration_zero.
  rewrite (map_ext_in _ (fun i => nth (List.length durations - i) durations
                                      "undefined")).
  2:{ intros i Hi. apply in_seq in Hi.
      apply commitDuration_from_end. lia. }
  rewrite map_nth_from_end by lia.
  rewrite firstn_rev.
  replace (List.length durations - c)%nat with (S (List.length reviews))
    by lia.
  rewrite <- Permutation_rev.
  symmetry. apply Permutation_middle.
Qed.

Lemma durations_perm :
  (1 <= List.length commits)%nat ->
  List.length durations = (List.length commits + List.length reviews)%nat ->
  Permutation durations
    (nth (List.length reviews) durations "undefined"
     :: firstn (List.length reviews) durations
        ++ skipn (S (List.length reviews)) durations)%list.
Proof.
  intros some_commit one_duration_each.
  rewrite (split_at_nth "undefined" durations (List.length reviews)) at 1
    by lia.
  symmetry. apply Permutation_middle.
Qed.

Lemma review_position_used (i : nat) :
  List.length durations = (List.length commits + List.length reviews)%nat ->
  (i < List.length reviews)%nat ->
  atIndex (List.length durations) (Z.of_nat i) = Some i.
Proof. intros HL Hi. apply atIndex_nonneg. lia. Qed.

Lemma commit_position_used (i : nat) :
  List.length durations = (List.length commits + List.length reviews)%nat ->
  (i < List.length commits)%nat ->
  atIndex (List.length durations) (- Z.of_nat i)
  = Some (if Nat.eqb i 0 then 0 else List.length durations - i)%nat.
Proof.
  intros HL Hi. destruct i as [|i].
  - simpl Nat.eqb. cbv iota. rewrite atIndex_minus_zero.
    apply atIndex_nonneg. lia.
  - simpl Nat.eqb. cbv iota. apply atIndex_from_end. lia.
Qed.

End SharedDuration.

Lemma string_app_assoc (a b c : string) :
  ((a ++ b) ++ c = a ++ b ++ c)%string.
Proof.
  induction a as [|x a IH]; simpl; [| rewrite IH]; reflexivity.
Qed.

Lemma mapi_from_Forall2 {A B C : Type}
    (f : A -> nat -> B) (g : nat -> C) (R : B -> C -> Prop) :
  (forall x k, R (f x k) (g k)) ->
  forall (l : list A) (i : nat),
    Forall2 R (mapi_from f i l) (map g (seq i (List.length l))).
Proof.
  intros Hfg. induction l as [|x l IH]; intros i; simpl.
  - constructor.
  - constructor; [apply Hfg | apply IH].
Qed.

(** Every row ends with a comma and the duration listed for it in
    [rowDurations]. *)
Lemma rows_print_rowDurations
    (commits : list Commit.t) (reviews : list Review.t)
    (durations : list string) :
  Forall2 (fun row dur =>
             exists fields, Row.data row = (fields ++ "," ++ dur)%string)
    (reviewRows reviews durations ++ commitRows commits durations)
    (rowDurations commits reviews durations).
Proof.
  unfold rowDurations. apply Forall2_app.
  - apply mapi_from_Forall2. intros review k.
    exists (Review.repo review ++ "," ++
            dquote ++ Review.date review ++ dquote ++ "," ++
            dquote ++ Review.pullRequest review ++ dquote ++ "," ++
            dquote ++ Config.reviewComment ++ dquote)%string.
    unfold reviewRow. cbn [Row.data].
    repeat rewrite string_app_assoc. reflexivity.
  - apply mapi_from_Forall2. intros commit k.
    exists (Commit.project commit ++ "," ++
            dquote ++ Commit.date commit ++ dquote ++ "," ++
            dquote ++ Commit.message commit ++ dquote ++ "," ++
            Config.commitComment)%string.
    unfold commitRow. cbn [Row.data].
    repeat rewrite string_app_assoc. reflexivity.
Qed.

(** C9 (counterexample): one review and one commit, with the two
    durations the allocator returns when both entries draw 1/4: both are
    "80.00", both rows print "80.00", and the durations of the rows are
    a permutation of the allocation. *)
Lemma rowDurations_permutation_when_durations_equal :
  let reviews := [exampleReview 1710028800000 "March 10, 2024" "Add tests"] in
  let commits := [exampleCommit 1709596800000 "March 5, 2024" "first" "Alice"] in
  let durations :=
    distributeTimeEvenly (drawsOf [1 # 2; 1 # 4; 1 # 4]%Q) 2
      Config.totalHours Config.allowedVariation in
  (1 <= List.length reviews)%nat
  /\ (1 <= List.length commits)%nat
  /\ durations = ["80.00"; "80.00"]%string
  /\ rowDurations commits reviews durations = ["80.00"; "80.00"]%string
  /\ Permutation (rowDurations commits reviews durations) durations.
Proof.
  cbv zeta.
  split; [simpl; lia |].
  split; [simpl; lia |].
  split; [reflexivity |].
  split; [reflexivity |].
  change (Permutation ["80.00"; "80.00"]%string ["80.00"; "80.00"]%string).
  reflexivity.
Qed.

(** C9 (amended): with at least one review, at least one commit and one
    duration for each entry, the first commit and the first review print
    the same duration, the one at position 0; no row reads the position
    equal to the number of reviews; and the durations of the rows are a
    permutation of the allocation exactly when the durations at these
    two positions are equal, so they are none when the two differ. *)
Theorem first_commit_shares_first_review_duration
    (commits : list Commit.t) (reviews : list Review.t)
    (durations : list string) :
  (1 <= List.length reviews)%nat ->
  (1 <= List.length commits)%nat ->
  List.length durations = (List.length commits + List.length reviews)%nat ->
  (commitDuration durations 0 = nth 0 durations "undefined"%string
   /\ reviewDuration durations 0 = nth 0 durations "undefined"%string)
  /\ Forall2 (fun row dur =>
                exists fields, Row.data row = (fields ++ "," ++ dur)%string)
       (reviewRows reviews durations ++ commitRows commits durations)
       (rowDurations commits reviews durations)
  /\ (forall i, (i < List.length reviews)%nat ->
        atIndex (List.length durations) (Z.of_nat i)
        <> Some (List.length reviews))
  /\ (forall i, (i < List.length commits)%nat ->
        atIndex (List.length durations) (- Z.of_nat i)
        <> Some (List.length reviews))
  /\ (Permutation (rowDurations commits reviews durations) durations
      <-> nth 0 durations "undefined"%string
          = nth (List.length reviews) durations "undefined"%string).
Proof.
  intros HR HC HL.
  split; [split; [apply commitDuration_zero | apply reviewDuration_nth] |].
  split; [apply rows_print_rowDurations |].
  split.
  { intros i Hi. rewrite (review_position_used commits reviews durations i HL Hi).
    intros E. injection E as E. lia. }
  split.
  { intros i Hi.
    rewrite (commit_position_used commits reviews durations i HL Hi).
    intros E. injection E as E. destruct i; simpl in E; lia. }
  pose proof (rowDurations_perm commits reviews durations HC HL) as P1.
  pose proof (durations_perm commits reviews durations HC HL) as P2.
  split.
  - intros HP. apply (perm_cons_same_tail _ _
      (firstn (List.length reviews) durations
       ++ skipn (S (List.length reviews)) durations)%list).
    rewrite <- P1, <- P2. exact HP.
  - intros E. rewrite P1, E. symmetry. exact P2.
Qed.

Lemma first_commit_shares_first_review_duration_witness :
  let reviews := [exampleReview 1710028800000 "March 10, 2024" "Add tests"] in
  let commits :=
    [exampleCommit 1709596800000 "March 5, 2024" "first" "Alice";
     exampleCommit 1710892800000 "March 20, 2024" "second" "Alice"] in
  let durations := ["52.84"; "53.33"; "53.83"]%string in
  (commitDuration durations 0 = nth 0 durations "undefined"%string
   /\ reviewDuration durations 0 = nth 0 durations "undefined"%string)
  /\ Forall2 (fun row dur =>
                exists fields, Row.data row = (fields ++ "," ++ dur)%string)
       (reviewRows reviews durations ++ commitRows commits durations)
       (rowDurations commits reviews durations)
  /\ (forall i, (i < List.length reviews)%nat ->
        atIndex (List.length durations) (Z.of_nat i)
        <> Some (List.length reviews))
  /\ (forall i, (i < List.length commits)%nat ->
        atIndex (List.length durations) (- Z.of_nat i)
        <> Some (List.length reviews))
  /\ (Permutation (rowDurations commits reviews durations) durations
      <-> nth 0 durations "undefined"%string
          = nth (List.length reviews) durations "undefined"%string).
Proof.
  cbv zeta.
  apply (first_commit_shares_first_review_duration
           [exampleCommit 1709596800000 "March 5, 2024" "first" "Alice";
            exampleCommit 1710892800000 "March 20, 2024" "second" "Alice"]
           [exampleReview 1710028800000 "March 10, 2024" "Add tests"]
           ["52.84"; "53.33"; "53.83"]%string).
  - simpl. lia.
  - simpl. lia.
  - reflexivity.
Defined.

(* ------------------------------------------------------------------ *)
(** ** The CSV text *)

(** [join]: every element but the last is followed by the separator. *)
Lemma concat_snoc (sep : string) (rows : list string) (last : string) :
  String.concat sep (rows ++ [last])
  = fold_right (fun r acc => (r ++ sep ++ acc)%string) last rows.
Proof.
  induction rows as [|r rows IH].
  - reflexivity.
  - cbn [app fold_right]. rewrite <- IH.
    destruct rows as [|r' rows]; reflexivity.
Qed.

Lemma fold_right_over_map {A B C : Type}
    (f : A -> B) (g : B -> C -> C) (c : C) (l : list A) :
  fold_right g c (map f l) = fold_right (fun x acc => g (f x) acc) c l.
Proof.
  induction l as [|x l IH]; simpl; [| rewrite IH]; reflexivity.
Qed.

Lemma allRows_length
    (commits : list Commit.t) (reviews : list Review.t)
    (durations : list string) :
  List.length (allRows commits reviews durations)
  = (List.length commits + List.length reviews)%nat.
Proof.
  unfold allRows.
  change (fun a b => (Row.date a - Row.date b)%Z) with (byKey Row.date).
  rewrite (Permutation_length (sort_perm Row.date _)).
  rewrite length_app. unfold reviewRows, commitRows.
  rewrite !mapi_length. lia.
Qed.

(** Every assembled row is the row of a commit or the row of a review. *)
Lemma allRows_origin
    (commits : list Commit.t) (reviews : list Review.t)
    (durations : list string) (row : Row.t) :
  In row (allRows commits reviews durations) ->
  (exists commit i, nth_error commits i = Some commit
                    /\ row = commitRow durations commit i)
  \/ (exists review i, nth_error reviews i = Some review
                       /\ row = reviewRow durations review i).
Proof.
  unfold allRows.
  change (fun a b => (Row.date a - Row.date b)%Z) with (byKey Row.date).
  intros Hin.
  apply (Permutation_in _ (sort_perm Row.date _)) in Hin.
  apply in_app_or in Hin. destruct Hin as [Hin | Hin].
  - right. apply mapi_from_In in Hin. exact Hin.
  - left. apply mapi_from_In in Hin. exact Hin.
Qed.

Lemma csvContent_unfold
    (commits : list Commit.t) (reviews : list Review.t)
    (durations : list string) :
  csvContent commits reviews durations
  = ("Project/Repo,Date,Commit/Review Message,Comments,Time used"
     ++ newline
     ++ String.concat newline
          (map Row.data (allRows commits reviews durations)))%string.
Proof.
  unfold csvContent, csvHeader, allRowsData.
  rewrite string_app_assoc. reflexivity.
Qed.

Lemma csvContent_rows_then_last
    (commits : list Commit.t) (reviews : list Review.t)
    (durations : list string) (rows : list Row.t) (last : Row.t) :
  allRows commits reviews durations = rows ++ [last] ->
  csvContent commits reviews durations
  = ("Project/Repo,Date,Commit/Review Message,Comments,Time used"
     ++ newline
     ++ fold_right
          (fun r acc => Row.data r ++ newline ++ acc)
          (Row.data last) rows)%string.
Proof.
  intros Hrows. rewrite csvContent_unfold, Hrows.
  rewrite map_app. cbn [map]. rewrite concat_snoc, fold_right_over_map.
  reflexivity.
Qed.



(** *** The last character of the text *)

Lemma digitChar_not_newline (d : Z) :
  (0 <= d < 10)%Z -> digitChar d <> "010"%char.
Proof.
  intros Hd. unfold digitChar.
  assert (Hk : (Z.to_nat d < 10)%nat) by lia.
  revert Hk. generalize (Z.to_nat d) as k. intros k Hk.
  do 10 (destruct k as [|k];
         [intros E; vm_compute in E; discriminate E |]).
  lia.
Qed.

Lemma endsWithoutNewline_prefix (p s : string) :
  endsWithoutNewline s -> endsWithoutNewline (p ++ s)%string.
Proof.
  intros [init [c [-> Hc]]]. exists (p ++ init)%string, c.
  split; [symmetry; apply string_app_assoc | exact Hc].
Qed.

Lemma showHundredths_end (n : Z) : endsWithoutNewline (showHundredths n).
Proof.
  unfold showHundredths.
  apply endsWithoutNewline_prefix. apply endsWithoutNewline_prefix.
  exists (String (digitChar ((n mod 100) / 10)) EmptyString),
         (digitChar (n mod 10)).
  split; [reflexivity |].
  apply digitChar_not_newline. apply Z.mod_pos_bound. lia.
Qed.

Lemma toFixed2_end (x : number) : endsWithoutNewline (toFixed2 x).
Proof.
  destruct x as [q | | |]; unfold toFixed2.
  - destruct (sign q).
    + apply showHundredths_end.
    + apply endsWithoutNewline_prefix. apply showHundredths_end.
    + apply showHundredths_end.
  - exists "Infinit"%string, "y"%char. split; [reflexivity | discriminate].
  - exists "-Infinit"%string, "y"%char. split; [reflexivity | discriminate].
  - exists "Na"%string, "N"%char. split; [reflexivity | discriminate].
Qed.

Lemma rows_end_with_last (rows : list Row.t) (z : string) :
  exists p : string,
    fold_right (fun r acc => (Row.data r ++ newline ++ acc)%string) z rows
    = (p ++ z)%string.
Proof.
  induction rows as [|r rows [p IH]]; cbn [fold_right].
  - exists EmptyString. reflexivity.
  - exists (Row.data r ++ newline ++ p)%string. rewrite IH.
    rewrite !string_app_assoc. reflexivity.
Qed.

Lemma nth_in_range_In (durations : list string) (k : nat) :
  (k < List.length durations)%nat ->
  In (nth k durations "undefined"%string) durations.
Proof. intros Hk. apply nth_In. exact Hk. Qed.

Lemma endsWith_prefix (d p s : string) :
  endsWith d s -> endsWith d (p ++ s)%string.
Proof.
  intros [init ->]. exists (p ++ init)%string.
  symmetry. apply string_app_assoc.
Qed.

Lemma endsWith_refl (d : string) : endsWith d d.
Proof. exists EmptyString. reflexivity. Qed.

Lemma endsWith_endsWithoutNewline (d s : string) :
  endsWith d s -> endsWithoutNewline d -> endsWithoutNewline s.
Proof.
  intros [init ->] Hd. apply endsWithoutNewline_prefix. exact Hd.
Qed.

(** X28: with at least one entry, the text that [writeToCSV] writes
    ends with one of the durations it got from the allocator, with
    nothing after it: the last character of the text is the last
    character of that duration and is not a newline. *)
Lemma writeToCSV_no_trailing_newline
    (rnd : nat -> Q) (commits : list Commit.t) (reviews : list Review.t) :
  (1 <= List.length commits + List.length reviews)%nat ->
  exists duration : string,
    In duration
      (distributeTimeEvenly rnd
         (List.length commits + List.length reviews)
         Config.totalHours Config.allowedVariation)
    /\ endsWith duration (writeToCSV rnd commits reviews)
    /\ endsWithoutNewline duration
    /\ endsWithoutNewline (writeToCSV rnd commits reviews).
Proof.
  intros Hsome.
  assert (Main : exists duration : string,
             In duration
               (distributeTimeEvenly rnd
                  (List.length commits + List.length reviews)
                  Config.totalHours Config.allowedVariation)
             /\ endsWith duration (writeToCSV rnd commits reviews)).
  { unfold writeToCSV. cbv zeta.
    set (durations := distributeTimeEvenly rnd _ _ _).
    assert (Hlen : List.length durations
                   = (List.length commits + List.length reviews)%nat)
      by apply distributeTimeEvenly_length.
    destruct (exists_last (l := allRows commits reviews durations))
      as [rows [last Hrows]].
    { intros E. pose proof (allRows_length commits reviews durations) as HL.
      rewrite E in HL. simpl in HL. lia. }
    rewrite (csvContent_rows_then_last commits reviews durations rows last
               Hrows).
    destruct (rows_end_with_last rows (Row.data last)) as [p ->].
    assert (Hin : In last (allRows commits reviews durations))
      by (rewrite Hrows; apply in_or_app; right; left; reflexivity).
    apply allRows_origin in Hin.
    destruct Hin as [[commit [i [Hi ->]]] | [review [i [Hi ->]]]].
    - assert (Hi' : (i < List.length commits)%nat)
        by (apply nth_error_Some; congruence).
      exists (commitDuration durations i). split.
      + destruct i as [|i].
        * rewrite commitDuration_zero. apply nth_in_range_In. lia.
        * rewrite commitDuration_from_end by lia. apply nth_in_range_In. lia.
      + do 3 apply endsWith_prefix.
        unfold commitRow. cbn [Row.data].
        do 12 apply endsWith_prefix. apply endsWith_refl.
    - assert (Hi' : (i < List.length reviews)%nat)
        by (apply nth_error_Some; congruence).
      exists (reviewDuration durations i). split.
      + rewrite reviewDuration_nth. apply nth_in_range_In. lia.
      + do 3 apply endsWith_prefix.
        unfold reviewRow. cbn [Row.data].
        do 14 apply endsWith_prefix. apply endsWith_refl. }
  destruct Main as [duration [Hin Hend]].
  assert (Hd : endsWithoutNewline duration).
  { unfold distributeTimeEvenly in Hin. apply in_map_iff in Hin.
    destruct Hin as [x [<- _]]. apply toFixed2_end. }
  exists duration. split; [exact Hin |]. split; [exact Hend |].
  split; [exact Hd |].
  exact (endsWith_endsWithoutNewline _ _ Hend Hd).
Qed.

(* ------------------------------------------------------------------ *)
(** ** The author filter *)

Lemma includes_In (l : list string) (x : string) :
  includes l x = true <-> In x l.
Proof.
  unfold includes. rewrite existsb_exists. split.
  - intros [y [Hy E]]. apply String.eqb_eq in E. subst y. exact Hy.
  - intros Hx. exists x. split; [exact Hx | apply String.eqb_refl].
Qed.

Lemma includes_allowed (author : list string) (commit : Commit.t) :
  includes author (Commit.author commit) = allowed author commit.
Proof.
  unfold allowed.
  destruct (in_dec string_dec (Commit.author commit) author) as [Hin | Hout].
  - apply includes_In. exact Hin.
  - destruct (includes author (Commit.author commit)) eqn:E; [| reflexivity].
    apply includes_In in E. contradiction.
Qed.

Lemma filter_Subseq {A : Type} (p : A -> bool) (l : list A) :
  Subseq (filter p l) l.
Proof.
  induction l as [|x l IH]; simpl.
  - constructor.
  - destruct (p x); constructor; exact IH.
Qed.

Section AllCommitsFacts.

Variable tza : Z.
Variables year month : Z.
Variable localizeDate : Z -> string.
Variable author : list string.

Lemma allCommits_from (P : Commit.t -> Prop)
    (gitClients : list (string * list LogEntry.t)) :
  (forall name log commit,
      In commit (userCommits author
                   (getCommits tza year month localizeDate name log)) ->
      P commit) ->
  forall acc : list Commit.t,
    Forall P acc ->
    Forall P
      (fold_left
         (fun acc client =>
            acc ++ userCommits author
                     (getCommits tza year month localizeDate
                        (fst client) (snd client)))
         gitClients acc).
Proof.
  intros HP. induction gitClients as [|client clients IH]; intros acc Hacc.
  - exact Hacc.
  - simpl. apply IH. apply Forall_app. split; [exact Hacc |].
    apply Forall_forall. intros commit Hc. eapply HP. exact Hc.
Qed.

(** Every commit handed to [writeToCSV] has an author of the list. *)
Lemma allCommits_authors (gitClients : list (string * list LogEntry.t)) :
  Forall (fun commit => In (Commit.author commit) author)
    (allCommits tza year month localizeDate author gitClients).
Proof.
  unfold allCommits. apply allCommits_from; [| constructor].
  intros name log commit Hc. unfold userCommits in Hc.
  apply filter_In in Hc. destruct Hc as [_ Hc].
  apply includes_In. exact Hc.
Qed.

End AllCommitsFacts.

(** C8: the filter keeps the commits whose author is a string of the
    list and no other, in their order, and keeps none when the list is
    empty; a commit whose author is "Bob" is not among the commits that
    reach the rows when the list is "Alice" alone. *)
Theorem userCommits_keeps_listed_authors
    (author : list string) (commits : list Commit.t) :
  userCommits author commits = filter (allowed author) commits
  /\ (forall commit,
        In commit (userCommits author commits)
        <-> In commit commits /\ In (Commit.author commit) author)
  /\ Subseq (userCommits author commits) commits
  /\ userCommits [] commits = []
  /\ (forall (tza year month : Z) (localizeDate : Z -> string)
             (gitClients : list (string * list LogEntry.t))
             (commit : Commit.t),
        Commit.author commit = "Bob"%string ->
        ~ In commit
            (allCommits tza year month localizeDate ["Alice"%string]
               gitClients)).
Proof.
  split.
  { unfold userCommits. apply filter_ext. intros c. apply includes_allowed. }
  split.
  { intros commit. unfold userCommits. rewrite filter_In, includes_In.
    reflexivity. }
  split; [apply filter_Subseq |].
  split.
  { unfold userCommits. induction commits as [|c l IH]; [reflexivity |].
    simpl. exact IH. }
  intros tza year month localizeDate gitClients commit HBob Hin.
  pose proof (allCommits_authors tza year month localizeDate
                ["Alice"%string] gitClients) as HF.
  rewrite Forall_forall in HF. specialize (HF commit Hin).
  rewrite HBob in HF. destruct HF as [E | []]. discriminate.
Qed.

Lemma userCommits_keeps_listed_authors_witness :
  let bob := exampleCommit 1709596800000 "March 5, 2024" "first" "Bob" in
  let alice := exampleCommit 1710892800000 "March 20, 2024" "second" "Alice" in
  let lower := exampleCommit 1710892800000 "March 20, 2024" "third" "alice" in
  userCommits ["Alice"%string] [bob; alice; lower] = [alice]
  /\ ~ In bob
       (allCommits 0 2024 2 (fun _ => "March 5, 2024"%string)
          ["Alice"%string]
          [("timesheet"%string,
            [LogEntry.mk (Some 1709596800000%Z) "first" "Bob";
             LogEntry.mk (Some 1710892800000%Z) "second" "Alice"])]).
Proof.
  cbv zeta. split.
  - reflexivity.
  - destruct (userCommits_keeps_listed_authors ["Alice"%string] [])
      as [_ [_ [_ [_ W]]]].
    apply W. reflexivity.
Defined.

(* ================================================================== *)
(** * Further properties *)
(* ================================================================== *)

(* ------------------------------------------------------------------ *)
(** ** The month filter over time *)

Section MonthWindow.
Local Open Scope Z_scope.
Variable tza : Z.
Variables y m : Z.

Lemma startOfNextMonth_is_next_start :
  startOfMonth tza y (m + 1) = startOfNextMonth tza y m.
Proof. reflexivity. Qed.

(** Month 12 of a year is month 0 of the next. *)
Lemma MakeDay_year_carry (yr d : Z) :
  JSDate.MakeDay yr (11 + 1) d = JSDate.MakeDay (yr + 1) 0 d.
Proof.
  unfold JSDate.MakeDay.
  change ((11 + 1) / 12) with 1. change ((11 + 1) mod 12) with 0.
  change (0 / 12) with 0. change (0 mod 12) with 0.
  replace (yr + 1 + 0) with (yr + 1) by lia. reflexivity.
Qed.

End MonthWindow.

(** X1: for a month index from 0 to 11 whose first instant [s], end
    bound [e] and successor's first instant [n] are valid dates,
    [isCommitInMonth] accepts exactly the instants from [s] to [e], both
    included; the window is not empty ([s <= e]) and it closes before
    the next month starts ([e < n]). *)
Theorem isCommitInMonth_window (tza y m s e n t : Z) :
  (0 <= m <= 11)%Z ->
  startOfMonth tza y m = Some s ->
  endOfMonth tza y m = Some e ->
  startOfNextMonth tza y m = Some n ->
  (isCommitInMonth tza y m (Some t) = true <-> (s <= t <= e)%Z)
  /\ (s <= e < n)%Z.
Proof.
  intros Hm Hs He Hn. split.
  - unfold isCommitInMonth. rewrite Hs, He. simpl.
    rewrite andb_true_iff, !Z.leb_le. reflexivity.
  - pose proof (endOfMonth_is_last_midnight tza y m e n He Hn) as Een.
    pose proof (month_span
                  (if (0 <=? y)%Z && (y <=? 99)%Z then (1900 + y)%Z else y)
                  m Hm) as HS.
    unfold startOfMonth in Hs. unfold endOfMonth in He.
    apply Date_ymd_some in Hs. apply Date_ymd_some in He.
    unfold JSDate.MakeDate, JSDate.msPerDay in *. lia.
Qed.

Lemma isCommitInMonth_window_witness :
  (isCommitInMonth 0 2024 1 (Some 1709078400000%Z) = true
   <-> (1706745600000 <= 1709078400000 <= 1709164800000)%Z)
  /\ (1706745600000 <= 1709164800000 < 1709251200000)%Z.
Proof.
  apply (isCommitInMonth_window 0 2024 1
           1706745600000 1709164800000 1709251200000).
  - lia.
  - reflexivity.
  - reflexivity.
  - reflexivity.
Defined.

(** X2: an instant accepted for one month is rejected for the month
    after it, within the year and from December to January of the next
    year (from the year 100 on, where years are not read as 19xx). *)
Theorem consecutive_months_disjoint (tza y m : Z) (commitDate : option Z) :
  isCommitInMonth tza y m commitDate = true ->
  isCommitInMonth tza y (m + 1) commitDate = false
  /\ ((100 <= y)%Z -> m = 11%Z ->
      isCommitInMonth tza (y + 1) 0 commitDate = false).
Proof.
  intros Hin.
  assert (Hnext : isCommitInMonth tza y (m + 1) commitDate = false).
  { unfold isCommitInMonth in *. rewrite startOfNextMonth_is_next_start.
    apply andb_true_iff in Hin. destruct Hin as [_ Hle].
    destruct commitDate as [t|]; [| reflexivity].
    destruct (endOfMonth tza y m) as [e|] eqn:He; [| discriminate].
    destruct (startOfNextMonth tza y m) as [n|] eqn:Hn; [| reflexivity].
    rewrite (endOfMonth_is_last_midnight tza y m e n He Hn) in Hle.
    simpl in Hle. apply Z.leb_le in Hle.
    apply andb_false_intro1. simpl. apply Z.leb_gt.
    unfold JSDate.msPerDay in Hle. lia. }
  split; [exact Hnext |].
  intros Hy ->.
  assert (E : startOfMonth tza (y + 1) 0 = startOfMonth tza y (11 + 1)).
  { unfold startOfMonth, JSDate.Date_ymd.
    destruct (Z.leb_spec 0 (y + 1)); [| lia].
    destruct (Z.leb_spec (y + 1) 99); [lia |].
    destruct (Z.leb_spec 0 y); [| lia].
    destruct (Z.leb_spec y 99); [lia |].
    cbn [andb]. cbv iota. rewrite MakeDay_year_carry. reflexivity. }
  unfold isCommitInMonth in *. rewrite E.
  apply andb_false_iff in Hnext. destruct Hnext as [Hnext | Hnext].
  - rewrite Hnext. reflexivity.
  - clear Hnext. apply andb_true_iff in Hin. destruct Hin as [_ Hle].
    destruct commitDate as [t|]; [| reflexivity].
    destruct (endOfMonth tza y 11) as [e|] eqn:He; [| discriminate].
    destruct (startOfNextMonth tza y 11) as [n|] eqn:Hn.
    + rewrite startOfNextMonth_is_next_start, Hn.
      rewrite (endOfMonth_is_last_midnight tza y 11 e n He Hn) in Hle.
      simpl in Hle. apply Z.leb_le in Hle.
      apply andb_false_intro1. simpl. apply Z.leb_gt.
      unfold JSDate.msPerDay in Hle. lia.
    + rewrite startOfNextMonth_is_next_start, Hn. reflexivity.
Qed.

Lemma consecutive_months_disjoint_witness :
  isCommitInMonth 0 2024 11 (Some 1733400000000%Z) = true
  /\ isCommitInMonth 0 2024 12 (Some 1733400000000%Z) = false
  /\ isCommitInMonth 0 2025 0 (Some 1733400000000%Z) = false.
Proof.
  assert (H : isCommitInMonth 0 2024 11 (Some 1733400000000%Z) = true)
    by reflexivity.
  destruct (consecutive_months_disjoint 0 2024 11 _ H) as [W1 W2].
  split; [exact H |]. split; [exact W1 |].
  apply W2; [lia | reflexivity].
Defined.



(* ------------------------------------------------------------------ *)
(** ** The allocator: range, single entry, rounding, failure *)

Lemma effectiveTotal_range (rnd : nat -> Q) (T v : Q) :
  (0 <= rnd 0%nat < 1)%Q -> (0 <= v)%Q ->
  (T - v <= effectiveTotal rnd T v <= T + v)%Q
  /\ ((0 < v)%Q -> (effectiveTotal rnd T v < T + v)%Q).
Proof.
  intros [Hr0 Hr1] Hv. unfold effectiveTotal.
  assert (P1 : (0 <= rnd 0%nat * v)%Q) by (apply Qmult_le_0_compat; lra).
  assert (P2 : (0 <= (1 - rnd 0%nat) * v)%Q)
    by (apply Qmult_le_0_compat; lra).
  split; [split; lra |].
  intros Hv'.
  assert (P3 : (0 < (1 - rnd 0%nat) * v)%Q)
    by (apply Qmult_lt_0_compat; lra).
  lra.
Qed.

(** X4: for a total and a variation that are whole numbers of hours, of
    size at most 1000000, and a draw in [0, 1), the effective total lies
    between the total less the variation and the total plus the
    variation, both included; with a variation of 0 it is the total. *)
Theorem targetHours_within_variation
    (rnd : nat -> Q) (total variation : Z) :
  (0 <= rnd 0%nat < 1)%Q ->
  (0 <= variation <= 1000000)%Z ->
  (-1000000 <= total <= 1000000)%Z ->
  exists H : Q,
    targetHours rnd (Fin (inject_Z total)) (Fin (inject_Z variation)) = Fin H
    /\ (inject_Z (total - variation) <= H <= inject_Z (total + variation))%Q
    /\ (variation = 0%Z -> (H == inject_Z total)%Q).
Proof.
  intros Hr [Hv _] _.
  exists (effectiveTotal rnd (inject_Z total) (inject_Z variation)).
  assert (Hv' : (0 <= inject_Z variation)%Q).
  { change 0%Q with (inject_Z 0). rewrite <- Zle_Qle. exact Hv. }
  destruct (effectiveTotal_range rnd (inject_Z total) (inject_Z variation)
              Hr Hv') as [R1 _].
  split; [reflexivity |].
  split.
  - unfold Z.sub. rewrite !inject_Z_plus, inject_Z_opp.
    set (a := inject_Z total) in *. set (b := inject_Z variation) in *.
    lra.
  - intros ->. change (inject_Z 0) with 0%Q in *.
    set (a := inject_Z total) in *. lra.
Qed.

Lemma targetHours_within_variation_witness :
  exists H : Q,
    targetHours exampleDraws (Fin (inject_Z 160)) (Fin (inject_Z 5)) = Fin H
    /\ (inject_Z (160 - 5) <= H <= inject_Z (160 + 5))%Q
    /\ (5%Z = 0%Z -> (H == inject_Z 160)%Q).
Proof.
  apply (targetHours_within_variation exampleDraws 160 5).
  - split; [discriminate | reflexivity].
  - lia.
  - lia.
Defined.


Lemma roundHundredths_near (q : Q) :
  (q * 100 - (1 # 2) < inject_Z (roundHundredths q)
   /\ inject_Z (roundHundredths q) <= q * 100 + (1 # 2))%Q.
Proof.
  unfold roundHundredths.
  pose proof (Qfloor_le (q * 100 + (1 # 2))) as H1.
  pose proof (Qlt_floor (q * 100 + (1 # 2))) as H2.
  rewrite inject_Z_plus in H2. change (inject_Z 1) with 1%Q in H2.
  split; lra.
Qed.



(** X6: when the rough durations sum to zero, no duration returned is a
    number: each is "NaN", "Infinity" or "-Infinity". *)
Theorem zero_rough_sum_gives_no_number
    (rnd : nat -> Q) (n : nat) (T v s : Q) :
  (1 <= n)%nat ->
  sum rnd n (Fin T) (Fin v) = Fin s ->
  (s == 0)%Q ->
  Forall notANumberText (distributeTimeEvenly rnd n (Fin T) (Fin v)).
Proof.
  intros Hn Hsum Hs.
  unfold distributeTimeEvenly, adjustedTimes, adjustmentFactor.
  rewrite Hsum, targetHours_fin, (timeArray_fin rnd n T v Hn).
  unfold div. unfold sign at 1. apply Qeq_alt in Hs. rewrite Hs.
  rewrite !map_map. apply Forall_forall. intros text Htext.
  apply in_map_iff in Htext. destruct Htext as [q [<- _]].
  unfold notANumberText.
  destruct (sign (effectiveTotal rnd T v)); cbn [inf_of mul];
    destruct (sign q); cbn [inf_of CompOpp toFixed2]; auto.
Qed.

Lemma zero_rough_sum_gives_no_number_witness :
  Forall notANumberText (distributeTimeEvenly zeroDraws 2 (Fin 1) (Fin 0)).
Proof.
  apply (zero_rough_sum_gives_no_number zeroDraws 2 1 0
           (Qsum (roughTimes zeroDraws 2 1 0))).
  - lia.
  - apply sum_fin. lia.
  - reflexivity.
Defined.

(** *** The scaled durations as a list of rationals *)

Lemma Qsum_nonneg (l : list Q) :
  Forall (fun q => 0 <= q)%Q l -> (0 <= Qsum l)%Q.
Proof.
  induction 1 as [|q l Hq _ IH].
  - unfold Qsum; simpl. lra.
  - rewrite Qsum_cons. lra.
Qed.

Lemma Qsum_elem_le (l : list Q) (q : Q) :
  Forall (fun x => 0 <= x)%Q l -> In q l -> (q <= Qsum l)%Q.
Proof.
  induction 1 as [|x l Hx Hl IH]; intros Hin.
  - destruct Hin.
  - rewrite Qsum_cons. pose proof (Qsum_nonneg l Hl) as Hs.
    destruct Hin as [-> | Hin].
    + lra.
    + specialize (IH Hin). lra.
Qed.

Section ScaledTimes.
Local Open Scope Q_scope.

Variable rnd : nat -> Q.
Variable n : nat.
Variables T v : Q.
Hypothesis rnd_range : forall k, 0 <= rnd k < 1.
Hypothesis n_pos : (1 <= n)%nat.
Hypothesis above_half :
  inject_Z (Z.of_nat n) * (1 # 2) < effectiveTotal rnd T v.

Lemma rough_sum_pos : 0 < Qsum (roughTimes rnd n T v).
Proof.
  pose proof (rough_sum_range rnd n T v rnd_range n_pos) as [S1 _]. lra.
Qed.

Lemma roughTimes_pos :
  Forall (fun q => 0 < q) (roughTimes rnd n T v).
Proof.
  pose proof (roughTimes_range rnd n T v rnd_range) as HR.
  pose proof (inject_nat_pos n n_pos) as HN.
  assert (Hb : 1 # 2 < effectiveTotal rnd T v / inject_Z (Z.of_nat n))
    by (apply Qlt_shift_div_l; lra).
  eapply Forall_impl; [| exact HR]. cbv beta. intros q Hq. lra.
Qed.

Lemma adjustedTimes_scaled :
  adjustedTimes rnd n (Fin T) (Fin v) = map Fin (scaledTimes rnd n T v).
Proof.
  apply adjustedTimes_fin; [exact n_pos |].
  pose proof rough_sum_pos. lra.
Qed.



Lemma scaledTimes_range :
  Forall (fun q => 0 < q <= effectiveTotal rnd T v) (scaledTimes rnd n T v).
Proof.
  pose proof rough_sum_pos as Hs.
  pose proof roughTimes_pos as HP.
  pose proof (inject_nat_pos n n_pos) as HN.
  set (H := effectiveTotal rnd T v) in *.
  set (s := Qsum (roughTimes rnd n T v)) in *.
  assert (Hf : 0 < H / s) by (apply Qlt_shift_div_l; lra).
  apply Forall_forall. intros x Hx. unfold scaledTimes in Hx.
  apply in_map_iff in Hx. destruct Hx as [q [<- Hq]]. fold H s.
  assert (Hq0 : 0 < q) by (rewrite Forall_forall in HP; apply HP; exact Hq).
  assert (Hqs : q <= s).
  { apply Qsum_elem_le; [| exact Hq].
    eapply Forall_impl; [| exact HP]. cbv beta. intros; lra. }
  split.
  - apply Qmult_lt_0_compat; assumption.
  - assert (E : s * (H / s) == H) by (field; lra).
    assert (M : 0 <= (s - q) * (H / s)) by (apply Qmult_le_0_compat; lra).
    lra.
Qed.

Lemma scaledTimes_floor :
  inject_Z (Z.of_nat n) <= effectiveTotal rnd T v ->
  Forall (fun q => 1 # 5 <= q) (scaledTimes rnd n T v).
Proof.
  intros Hbase.
  pose proof (rough_sum_range rnd n T v rnd_range n_pos) as [S1 S2].
  pose proof (roughTimes_range rnd n T v rnd_range) as HR.
  pose proof (inject_nat_pos n n_pos) as HN.
  set (N := inject_Z (Z.of_nat n)) in *.
  set (H := effectiveTotal rnd T v) in *.
  set (s := Qsum (roughTimes rnd n T v)) in *.
  assert (Hb : 1 <= H / N) by (apply Qle_shift_div_l; lra).
  assert (Hf : 2 # 5 <= H / s) by (apply Qle_shift_div_l; lra).
  apply Forall_forall. intros x Hx. unfold scaledTimes in Hx.
  apply in_map_iff in Hx. destruct Hx as [q [<- Hq]]. fold H s.
  rewrite Forall_forall in HR. specialize (HR q Hq). cbv beta in HR.
  assert (M : 0 <= (q - (1 # 2)) * (H / s)) by (apply Qmult_le_0_compat; lra).
  lra.
Qed.

Lemma distributeTimeEvenly_rounded :
  distributeTimeEvenly rnd n (Fin T) (Fin v)
  = map showHundredths (map roundHundredths (scaledTimes rnd n T v)).
Proof.
  unfold distributeTimeEvenly. rewrite adjustedTimes_scaled, !map_map.
  apply map_ext_in. intros q Hq.
  pose proof scaledTimes_range as HR. rewrite Forall_forall in HR.
  apply toFixed2_nonneg. specialize (HR q Hq). cbv beta in HR. lra.
Qed.

End ScaledTimes.



Lemma exampleDraws_range : forall k, (0 <= exampleDraws k < 1)%Q.
Proof.
  intros k. do 5 (destruct k as [|k]; [split; [discriminate | reflexivity] |]).
  destruct k; split; try discriminate; reflexivity.
Qed.




Lemma roundHundredths_upper (q : Q) (k : Z) :
  (q * 100 < inject_Z k)%Q -> (roundHundredths q <= k)%Z.
Proof.
  intros Hk. destruct (roundHundredths_near q) as [_ R2].
  assert (L : (inject_Z (roundHundredths q) < inject_Z (k + 1))%Q).
  { rewrite inject_Z_plus. change (inject_Z 1) with 1%Q. lra. }
  rewrite <- Zlt_Qlt in L. lia.
Qed.

(** X9: with the totals of the configuration (160 hours, variation 5)
    and from 1 to 155 entries, every duration that [writeToCSV] gets
    from the allocator is the text of a number of hundredths from 20 to
    16500: between 0.20 and 165.00 hours. *)
Theorem configured_durations_in_range (rnd : nat -> Q) (n : nat) :
  (forall k, 0 <= rnd k < 1)%Q ->
  (1 <= n <= 155)%nat ->
  Forall (fun text => exists k : Z,
              text = showHundredths k /\ (20 <= k <= 16500)%Z)
    (distributeTimeEvenly rnd n Config.totalHours Config.allowedVariation).
Proof.
  intros Hrnd [Hn1 Hn2]. unfold Config.totalHours, Config.allowedVariation.
  destruct (effectiveTotal_range rnd 160 5 (Hrnd 0%nat)) as [[R1 R2] R3];
    [discriminate |].
  specialize (R3 eq_refl).
  assert (HN : (inject_Z (Z.of_nat n) <= 155)%Q).
  { change 155%Q with (inject_Z 155). rewrite <- Zle_Qle. lia. }
  pose proof (inject_nat_pos n Hn1) as HN1.
  assert (Hhalf : (inject_Z (Z.of_nat n) * (1 # 2)
                   < effectiveTotal rnd 160 5)%Q) by lra.
  assert (Hbase : (inject_Z (Z.of_nat n) <= effectiveTotal rnd 160 5)%Q)
    by lra.
  rewrite (distributeTimeEvenly_rounded rnd n 160 5 Hrnd Hn1 Hhalf).
  pose proof (scaledTimes_range rnd n 160 5 Hrnd Hn1 Hhalf) as HR.
  pose proof (scaledTimes_floor rnd n 160 5 Hrnd Hn1 Hhalf Hbase) as HF.
  rewrite Forall_forall in HR, HF.
  apply Forall_forall. intros text Htext.
  apply in_map_iff in Htext. destruct Htext as [k [<- Hk]].
  apply in_map_iff in Hk. destruct Hk as [q [<- Hq]].
  exists (roundHundredths q). split; [reflexivity |].
  specialize (HR q Hq). specialize (HF q Hq). cbv beta in HR, HF.
  split.
  - apply roundHundredths_lower. change (inject_Z 20) with 20%Q. lra.
  - apply roundHundredths_upper. change (inject_Z 16500) with 16500%Q. lra.
Qed.

Lemma configured_durations_in_range_witness :
  Forall (fun text => exists k : Z,
              text = showHundredths k /\ (20 <= k <= 16500)%Z)
    (distributeTimeEvenly exampleDraws 3
       Config.totalHours Config.allowedVariation).
Proof.
  apply (configured_durations_in_range exampleDraws 3).
  - exact exampleDraws_range.
  - lia.
Defined.

(* ------------------------------------------------------------------ *)
(** ** The rows: which durations are printed, what is printed, order *)

(** X10: with one duration for each entry, when there is no commit the
    rows print the durations in their order, and when there is no review
    the durations printed are a rearrangement of the allocation: none is
    lost and none is printed twice. *)
Theorem one_kind_of_entry_uses_every_duration
    (commits : list Commit.t) (reviews : list Review.t)
    (durations : list string) :
  List.length durations = (List.length commits + List.length reviews)%nat ->
  (commits = [] -> rowDurations commits reviews durations = durations)
  /\ (reviews = [] ->
      Permutation (rowDurations commits reviews durations) durations).
Proof.
  intros HL.
  assert (Hnone : commits = [] ->
                  rowDurations commits reviews durations = durations).
  { intros ->. unfold rowDurations. cbn [List.length seq map].
    rewrite app_nil_r.
    rewrite (map_ext _ _ (reviewDuration_nth durations)).
    rewrite map_nth_seq_firstn by (simpl in HL; lia).
    apply firstn_all2. simpl in HL. lia. }
  split; [exact Hnone |].
  intros ->. destruct commits as [|c commits'] eqn:EC.
  - rewrite Hnone by reflexivity. reflexivity.
  - rewrite <- EC in *.
    assert (HC : (1 <= List.length commits)%nat) by (rewrite EC; simpl; lia).
    rewrite (rowDurations_perm commits [] durations HC HL).
    symmetry. apply (durations_perm commits [] durations HC HL).
Qed.

Lemma one_kind_of_entry_uses_every_duration_witness :
  let commits :=
    [exampleCommit 1709596800000 "March 5, 2024" "first" "Alice";
     exampleCommit 1710892800000 "March 20, 2024" "second" "Alice";
     exampleCommit 1710979200000 "March 21, 2024" "third" "Alice"] in
  let reviews := [exampleReview 1710028800000 "March 10, 2024" "Add tests"] in
  rowDurations [] reviews ["80.00"%string] = ["80.00"%string]
  /\ Permutation
       (rowDurations commits [] ["52.84"; "53.33"; "53.83"]%string)
       ["52.84"; "53.33"; "53.83"]%string.
Proof.
  cbv zeta. split.
  - apply (one_kind_of_entry_uses_every_duration []
             [exampleReview 1710028800000 "March 10, 2024" "Add tests"]
             ["80.00"%string]); reflexivity.
  - apply (one_kind_of_entry_uses_every_duration
             [exampleCommit 1709596800000 "March 5, 2024" "first" "Alice";
              exampleCommit 1710892800000 "March 20, 2024" "second" "Alice";
              exampleCommit 1710979200000 "March 21, 2024" "third" "Alice"]
             [] ["52.84"; "53.33"; "53.83"]%string); reflexivity.
Defined.

(** X11: with one duration for each entry, every duration that a row
    prints is one of the allocation; no row prints "undefined" for a
    position outside it. *)
Theorem rows_print_allocated_durations
    (commits : list Commit.t) (reviews : list Review.t)
    (durations : list string) :
  List.length durations = (List.length commits + List.length reviews)%nat ->
  Forall (fun dur => In dur durations)
    (rowDurations commits reviews durations).
Proof.
  intros HL. unfold rowDurations. apply Forall_app. split.
  - apply Forall_forall. intros dur Hd.
    apply in_map_iff in Hd. destruct Hd as [i [<- Hi]]. apply in_seq in Hi.
    rewrite reviewDuration_nth. apply nth_In. lia.
  - apply Forall_forall. intros dur Hd.
    apply in_map_iff in Hd. destruct Hd as [i [<- Hi]]. apply in_seq in Hi.
    destruct i as [|i].
    + rewrite commitDuration_zero. apply nth_In. lia.
    + rewrite commitDuration_from_end by lia. apply nth_In. lia.
Qed.

Lemma rows_print_allocated_durations_witness :
  Forall (fun dur => In dur ["52.84"; "53.33"; "53.83"]%string)
    (rowDurations
       [exampleCommit 1709596800000 "March 5, 2024" "first" "Alice";
        exampleCommit 1710892800000 "March 20, 2024" "second" "Alice"]
       [exampleReview 1710028800000 "March 10, 2024" "Add tests"]
       ["52.84"; "53.33"; "53.83"]%string).
Proof.
  apply rows_print_allocated_durations. reflexivity.
Defined.

Lemma commitRow_printed (durations : list string)
    (c c' : Commit.t) (i : nat) :
  commitPrinted c = commitPrinted c' ->
  commitRow durations c i = commitRow durations c' i.
Proof.
  unfold commitPrinted, commitRow. intros E. injection E as E1 E2 E3 E4.
  rewrite E1, E2, E3, E4. reflexivity.
Qed.

Lemma reviewRow_printed (durations : list string)
    (r r' : Review.t) (i : nat) :
  reviewPrinted r = reviewPrinted r' ->
  reviewRow durations r i = reviewRow durations r' i.
Proof.
  unfold reviewPrinted, reviewRow. intros E. injection E as E1 E2 E3 E4.
  rewrite E1, E2, E3, E4. reflexivity.
Qed.

Lemma mapi_from_same_image {A B C : Type}
    (f : A -> nat -> B) (p : A -> C) :
  (forall x x' i, p x = p x' -> f x i = f x' i) ->
  forall (l l' : list A) (k : nat),
    map p l = map p l' -> mapi_from f k l = mapi_from f k l'.
Proof.
  intros Hf. induction l as [|x l IH]; intros [|x' l'] k E;
    try discriminate; [reflexivity |].
  simpl in E. injection E as Ex El. simpl.
  rewrite (Hf x x' k Ex). f_equal. apply IH. exact El.
Qed.

(** X12: the text depends on a commit only through its project, date
    text, message and time value, and on a review only through its
    repository, date text, title and time value: the author of a commit
    and the comment of a review are not written. *)
Theorem csv_ignores_author_and_review_comment
    (commits commits' : list Commit.t) (reviews reviews' : list Review.t)
    (durations : list string) :
  map commitPrinted commits = map commitPrinted commits' ->
  map reviewPrinted reviews = map reviewPrinted reviews' ->
  csvContent commits reviews durations
  = csvContent commits' reviews' durations.
Proof.
  intros Hc Hr. unfold csvContent, allRowsData, allRows.
  assert (Ec : commitRows commits durations = commitRows commits' durations).
  { unfold commitRows, mapi.
    apply (mapi_from_same_image _ commitPrinted); [| exact Hc].
    intros x x' i. apply commitRow_printed. }
  assert (Er : reviewRows reviews durations = reviewRows reviews' durations).
  { unfold reviewRows, mapi.
    apply (mapi_from_same_image _ reviewPrinted); [| exact Hr].
    intros x x' i. apply reviewRow_printed. }
  rewrite Ec, Er. reflexivity.
Qed.

Lemma csv_ignores_author_and_review_comment_witness :
  csvContent
    [exampleCommit 1709596800000 "March 5, 2024" "first" "Alice"]
    [Review.mk "Gwitchr/fillTimesheet" 1710028800000 "March 10, 2024"
       "Add tests" "Looks good"]
    ["80.00"; "80.00"]%string
  = csvContent
      [exampleCommit 1709596800000 "March 5, 2024" "first" "Gwitchr"]
      [Review.mk "Gwitchr/fillTimesheet" 1710028800000 "March 10, 2024"
         "Add tests" "No comment"]
      ["80.00"; "80.00"]%string.
Proof.
  apply csv_ignores_author_and_review_comment; reflexivity.
Defined.

Section SortedInput.
Context {A : Type}.
Variable key : A -> Z.

Lemma sorted_by_key (l : list A) :
  StronglySorted Z.le (map key l) ->
  StronglySorted (fun a b => (key a <= key b)%Z) l.
Proof.
  induction l as [|x l IH]; intros HS.
  - constructor.
  - simpl in HS. inversion HS as [|? ? HS' HF]; subst.
    constructor; [apply IH; exact HS' |].
    rewrite Forall_map in HF. exact HF.
Qed.

Lemma sort_of_sorted (l : list A) :
  StronglySorted (fun a b => (key a <= key b)%Z) l ->
  sort (byKey key) l = l.
Proof.
  induction 1 as [|x l HS IH HF].
  - reflexivity.
  - cbn [sort fold_right]. fold (sort (byKey key) l). rewrite IH.
    destruct l as [|z l]; [reflexivity |].
    cbn [insert]. apply Forall_inv in HF. unfold byKey.
    destruct (Z.leb_spec (key x - key z) 0); [reflexivity | lia].
Qed.

End SortedInput.

Lemma mapi_from_map_key {A B C : Type}
    (f : A -> nat -> B) (key : B -> C) (key' : A -> C) :
  (forall x i, key (f x i) = key' x) ->
  forall (l : list A) (k : nat),
    map key (mapi_from f k l) = map key' l.
Proof.
  intros Hf. induction l as [|x l IH]; intros k; simpl.
  - reflexivity.
  - rewrite Hf, IH. reflexivity.
Qed.

(** X13: when the time values of the reviews followed by those of the
    commits are already in ascending order, the rows stay as assembled:
    the review rows in their order, then the commit rows in theirs. *)
Theorem chronological_entries_keep_their_order
    (commits : list Commit.t) (reviews : list Review.t)
    (durations : list string) :
  StronglySorted Z.le
    (map Review.rawDate reviews ++ map Commit.rawDate commits) ->
  allRows commits reviews durations
  = reviewRows reviews durations ++ commitRows commits durations.
Proof.
  intros HS. unfold allRows.
  change (fun a b => (Row.date a - Row.date b)%Z) with (byKey Row.date).
  apply sort_of_sorted. apply sorted_by_key. rewrite map_app.
  unfold reviewRows, commitRows, mapi.
  rewrite (mapi_from_map_key (reviewRow durations) Row.date Review.rawDate)
    by reflexivity.
  rewrite (mapi_from_map_key (commitRow durations) Row.date Commit.rawDate)
    by reflexivity.
  exact HS.
Qed.

Lemma chronological_entries_keep_their_order_witness :
  let reviews := [exampleReview 1709596800000 "March 5, 2024" "Add tests"] in
  let commits :=
    [exampleCommit 1709596800000 "March 5, 2024" "first" "Alice";
     exampleCommit 1710892800000 "March 20, 2024" "second" "Alice"] in
  allRows commits reviews ["52.84"; "53.33"; "53.83"]%string
  = reviewRows reviews ["52.84"; "53.33"; "53.83"]%string
    ++ commitRows commits ["52.84"; "53.33"; "53.83"]%string.
Proof.
  cbv zeta. apply chronological_entries_keep_their_order.
  cbn [map app Review.rawDate Commit.rawDate exampleReview exampleCommit].
  repeat constructor; lia.
Defined.

Lemma writeToCSV_no_trailing_newline_witness :
  let commits :=
    [exampleCommit 1709596800000 "March 5, 2024" "first" "Alice";
     exampleCommit 1710892800000 "March 20, 2024" "second" "Alice"] in
  let reviews := [exampleReview 1710028800000 "March 10, 2024" "Add tests"] in
  exists duration : string,
    In duration
      (distributeTimeEvenly exampleDraws
         (List.length commits + List.length reviews)
         Config.totalHours Config.allowedVariation)
    /\ endsWith duration (writeToCSV exampleDraws commits reviews)
    /\ endsWithoutNewline duration
    /\ endsWithoutNewline (writeToCSV exampleDraws commits reviews).
Proof.
  intros commits reviews.
  apply (writeToCSV_no_trailing_newline exampleDraws commits reviews).
  simpl. lia.
Defined.

(* ------------------------------------------------------------------ *)
(** ** Fetching commits and filtering them by author *)

Lemma fold_left_app_flat_map {A B : Type} (f : A -> list B)
    (l : list A) (acc : list B) :
  fold_left (fun acc x => acc ++ f x) l acc = acc ++ flat_map f l.
Proof.
  revert acc. induction l as [|x l IH]; intros acc; simpl.
  - symmetry. apply app_nil_r.
  - rewrite IH. symmetry. apply app_assoc.
Qed.

Section Pipeline.

Variable tza : Z.
Variables year month : Z.
Variable localizeDate : Z -> string.

Lemma allCommits_as_flat_map (author : list string)
    (gitClients : list (string * list LogEntry.t)) :
  allCommits tza year month localizeDate author gitClients
  = flat_map
      (fun client =>
         userCommits author
           (getCommits tza year month localizeDate (fst client) (snd client)))
      gitClients.
Proof. unfold allCommits. rewrite fold_left_app_flat_map. reflexivity. Qed.


(** X15: filtering by author and filtering by month commute: the
    commits of a log kept for the authors are the commits of the log
    restricted to these authors; and filtering by author a second time
    changes nothing. *)
Theorem author_filter_commutes_with_month_filter
    (author : list string) (projectName : string) (log : list LogEntry.t) :
  userCommits author (getCommits tza year month localizeDate projectName log)
  = getCommits tza year month localizeDate projectName
      (filter (fun entry => includes author (LogEntry.author_name entry)) log)
  /\ userCommits author
       (userCommits author
          (getCommits tza year month localizeDate projectName log))
     = userCommits author
         (getCommits tza year month localizeDate projectName log).
Proof.
  split.
  - unfold userCommits, getCommits.
    induction log as [|entry log IH]; [reflexivity |].
    cbn [flat_map filter]. rewrite filter_app, IH.
    destruct (includes author (LogEntry.author_name entry)) eqn:Einc.
    + cbn [flat_map]. f_equal.
      destruct (LogEntry.date entry) as [t|]; [| reflexivity].
      destruct (isCommitInMonth tza year month (Some t)); [| reflexivity].
      cbn [filter Commit.author]. rewrite Einc. reflexivity.
    + replace (filter _ _) with (@nil Commit.t); [reflexivity |].
      destruct (LogEntry.date entry) as [t|]; [| reflexivity].
      destruct (isCommitInMonth tza year month (Some t)); [| reflexivity].
      cbn [filter Commit.author]. rewrite Einc. reflexivity.
  - unfold userCommits.
    set (l := getCommits tza year month localizeDate projectName log).
    induction l as [|c l IH]; [reflexivity |].
    cbn [filter].
    destruct (includes author (Commit.author c)) eqn:E.
    + cbn [filter]. rewrite E, IH. reflexivity.
    + exact IH.
Qed.

Lemma getCommits_cons (projectName : string)
    (entry : LogEntry.t) (log : list LogEntry.t) :
  getCommits tza year month localizeDate projectName (entry :: log)
  = getCommits tza year month localizeDate projectName [entry]
    ++ getCommits tza year month localizeDate projectName log.
Proof.
  unfold getCommits. cbn [flat_map]. rewrite app_nil_r. reflexivity.
Qed.

(** X16: every commit that [getCommits] returns carries the name of the
    project, has a time value that [isCommitInMonth] accepts, shows the
    text that [localizeDate] gives for it, and comes from an entry of
    the log with that date, message and author; there are at most as
    many as entries in the log, in the order of the log. *)
Theorem getCommits_entries
    (projectName : string) (log : list LogEntry.t) :
  Forall
    (fun commit =>
       Commit.project commit = projectName
       /\ isCommitInMonth tza year month (Some (Commit.rawDate commit)) = true
       /\ Commit.date commit = localizeDate (Commit.rawDate commit)
       /\ exists entry,
            In entry log
            /\ LogEntry.date entry = Some (Commit.rawDate commit)
            /\ LogEntry.message entry = Commit.message commit
            /\ LogEntry.author_name entry = Commit.author commit)
    (getCommits tza year month localizeDate projectName log)
  /\ (List.length (getCommits tza year month localizeDate projectName log)
      <= List.length log)%nat
  /\ Subseq
       (map Commit.message
          (getCommits tza year month localizeDate projectName log))
       (map LogEntry.message log).
Proof.
  induction log as [|entry log [IH1 [IH2 IH3]]].
  - split; [constructor |]. split; [apply le_n | constructor].
  - rewrite getCommits_cons.
    assert (Hone :
      getCommits tza year month localizeDate projectName [entry] = []
      \/ exists t,
           LogEntry.date entry = Some t
           /\ isCommitInMonth tza year month (Some t) = true
           /\ getCommits tza year month localizeDate projectName [entry]
              = [Commit.mk projectName t (localizeDate t)
                   (LogEntry.message entry) (LogEntry.author_name entry)]).
    { unfold getCommits. cbn [flat_map]. rewrite app_nil_r.
      destruct (LogEntry.date entry) as [t|]; [| left; reflexivity].
      destruct (isCommitInMonth tza year month (Some t)) eqn:E;
        [| left; reflexivity].
      right. exists t. repeat split. exact E. }
    assert (Htail :
      Forall
        (fun commit =>
           Commit.project commit = projectName
           /\ isCommitInMonth tza year month (Some (Commit.rawDate commit))
              = true
           /\ Commit.date commit = localizeDate (Commit.rawDate commit)
           /\ exists e,
                In e (entry :: log)
                /\ LogEntry.date e = Some (Commit.rawDate commit)
                /\ LogEntry.message e = Commit.message commit
                /\ LogEntry.author_name e = Commit.author commit)
        (getCommits tza year month localizeDate projectName log)).
    { eapply Forall_impl; [| exact IH1]. cbv beta.
      intros c [P1 [P2 [P3 [e [He P4]]]]].
      repeat split; try assumption. exists e. split; [right; exact He |].
      exact P4. }
    destruct Hone as [-> | [t [Ht [Hin ->]]]].
    + cbn [app]. split; [exact Htail |].
      split; [simpl; lia |]. cbn [map]. constructor. exact IH3.
    + cbn [app]. split.
      * constructor; [| exact Htail]. cbn.
        repeat split; try assumption.
        exists entry. split; [left; reflexivity |]. repeat split. exact Ht.
      * split; [simpl; lia |]. cbn [map Commit.message]. constructor.
        exact IH3.
Qed.

End Pipeline.

(** X17: two lists of authors with the same names, in any order and
    with any repetition, keep the same commits. *)
Theorem same_names_same_commits
    (author author' : list string) (commits : list Commit.t) :
  (forall name, In name author <-> In name author') ->
  userCommits author commits = userCommits author' commits.
Proof.
  intros Hsame. unfold userCommits. apply filter_ext. intros c.
  destruct (includes author (Commit.author c)) eqn:E1;
    destruct (includes author' (Commit.author c)) eqn:E2; try reflexivity.
  - apply includes_In in E1. apply Hsame in E1. apply includes_In in E1.
    congruence.
  - apply includes_In in E2. apply Hsame in E2. apply includes_In in E2.
    congruence.
Qed.

Lemma same_names_same_commits_witness :
  let commits :=
    [exampleCommit 1709596800000 "March 5, 2024" "first" "Alice";
     exampleCommit 1710892800000 "March 20, 2024" "second" "Bob"] in
  userCommits ["Alice"; "Gwitchr"]%string commits
  = userCommits ["Gwitchr"; "Alice"; "Gwitchr"]%string commits.
Proof.
  cbv zeta. apply same_names_same_commits.
  intros name. simpl. tauto.
Defined.

(** X18: when no project yields a commit of the authors and there is no
    review, the text written is the header line followed by a newline,
    whatever the draws. *)
Theorem nothing_found_writes_header_only
    (tza year month : Z) (localizeDate : Z -> string)
    (rnd : nat -> Q) (author : list string)
    (gitClients : list (string * list LogEntry.t)) :
  (forall client,
      In client gitClients ->
      userCommits author
        (getCommits tza year month localizeDate (fst client) (snd client))
      = []) ->
  fillTimesheet tza year month localizeDate rnd author gitClients []
  = ("Project/Repo,Date,Commit/Review Message,Comments,Time used"
     ++ newline)%string.
Proof.
  intros Hnone. unfold fillTimesheet.
  rewrite allCommits_as_flat_map.
  replace (flat_map _ gitClients) with (@nil Commit.t); [reflexivity |].
  symmetry. induction gitClients as [|client clients IH]; [reflexivity |].
  cbn [flat_map]. rewrite (Hnone client) by (left; reflexivity).
  apply IH. intros c Hc. apply Hnone. right. exact Hc.
Qed.

Lemma nothing_found_writes_header_only_witness :
  fillTimesheet 0 2024 2 (fun _ => "March 5, 2024"%string) exampleDraws
    ["Alice"%string]
    [("timesheet"%string,
      [LogEntry.mk (Some 1709596800000%Z) "first" "Bob";
       LogEntry.mk None "second" "Alice";
       LogEntry.mk (Some 1712000000000%Z) "third" "Alice"])]
    []
  = ("Project/Repo,Date,Commit/Review Message,Comments,Time used"
     ++ newline)%string.
Proof.
  apply nothing_found_writes_header_only.
  intros client [<- | []]. reflexivity.
Defined.

(* ------------------------------------------------------------------ *)
(** ** Splitting: the list of authors and the name of a repository *)

Section SplitFacts.
Variable sep : ascii.

Lemma splitOn_not_nil (s : string) : splitOn sep s <> [].
Proof.
  destruct s as [|c s]; simpl; [discriminate |].
  destruct (Ascii.eqb c sep); [discriminate |].
  destruct (splitOn sep s); discriminate.
Qed.

Lemma concat_cons_cons (x y : string) (l : list string) :
  String.concat (String sep EmptyString) (x :: y :: l)
  = (x ++ String sep (String.concat (String sep EmptyString) (y :: l)))%string.
Proof. reflexivity. Qed.

(** Joining the pieces with the separator gives the string back. *)
Lemma concat_splitOn (s : string) :
  String.concat (String sep EmptyString) (splitOn sep s) = s.
Proof.
  induction s as [|c s IH]; [reflexivity |].
  cbn [splitOn]. destruct (Ascii.eqb_spec c sep) as [-> | Hc].
  - pose proof (splitOn_not_nil s) as Hne.
    destruct (splitOn sep s) as [|y l]; [contradiction |].
    rewrite concat_cons_cons, IH. reflexivity.
  - pose proof (splitOn_not_nil s) as Hne.
    destruct (splitOn sep s) as [|y l]; [contradiction |].
    destruct l as [|z l].
    + cbn [String.concat] in *. rewrite IH. reflexivity.
    + rewrite concat_cons_cons in *. cbn [append]. rewrite IH. reflexivity.
Qed.

Lemma splitOn_pieces_free (s : string) :
  Forall (fun piece => occurs sep piece = false) (splitOn sep s).
Proof.
  induction s as [|c s IH]; cbn [splitOn].
  - constructor; [reflexivity | constructor].
  - destruct (Ascii.eqb c sep) eqn:Ec.
    + constructor; [reflexivity | exact IH].
    + destruct (splitOn sep s) as [|y l].
      * constructor; [| constructor]. cbn [occurs]. rewrite Ec. reflexivity.
      * apply Forall_cons_iff in IH. destruct IH as [Hy Hl].
        constructor; [| exact Hl]. cbn [occurs]. rewrite Ec. exact Hy.
Qed.

(** A string without the separator is its own single piece. *)
Lemma splitOn_free (s : string) :
  occurs sep s = false -> splitOn sep s = [s].
Proof.
  induction s as [|c s IH]; intros Hs; [reflexivity |].
  cbn [occurs] in Hs. apply orb_false_iff in Hs. destruct Hs as [Hc Hs].
  cbn [splitOn]. rewrite Hc, (IH Hs). reflexivity.
Qed.

(** Splitting what is left and right of a separator. *)
Lemma splitOn_app (a b : string) :
  splitOn sep (a ++ String sep b)
  = splitOn sep a ++ splitOn sep b.
Proof.
  induction a as [|c a IH]; cbn [append splitOn].
  - rewrite Ascii.eqb_refl. reflexivity.
  - destruct (Ascii.eqb c sep); rewrite IH.
    + reflexivity.
    + pose proof (splitOn_not_nil a) as Hne.
      destruct (splitOn sep a) as [|y l]; [contradiction | reflexivity].
Qed.

(** Splitting the join of pieces without the separator gives the
    pieces. *)
Lemma splitOn_concat (pieces : list string) :
  pieces <> [] ->
  Forall (fun piece => occurs sep piece = false) pieces ->
  splitOn sep (String.concat (String sep EmptyString) pieces) = pieces.
Proof.
  intros Hne HF. induction HF as [|x l Hx Hl IH]; [contradiction |].
  destruct l as [|y l].
  - cbn [String.concat]. apply splitOn_free. exact Hx.
  - rewrite concat_cons_cons, splitOn_app, (splitOn_free x Hx).
    rewrite IH by discriminate. reflexivity.
Qed.

End SplitFacts.

(** X19: when [GIT_AUTHORNAMES] is set, the list of authors is never
    empty and never the built-in default for its own sake: it is the
    pieces of the variable between its commas, none of which holds a
    comma, and joining them with commas gives the variable back. When
    the variable is not set, reading the configuration raises a
    TypeError instead of falling back to the default names. *)
Theorem configured_authors_are_the_pieces (names : string) :
  (exists pieces : list string,
      ConfigEnv.author (Some names) = inr pieces
      /\ pieces <> []
      /\ String.concat "," pieces = names
      /\ Forall (fun piece => occurs "," piece = false) pieces)
  /\ ConfigEnv.author None = inl TypeError.
Proof.
  split; [| reflexivity].
  exists (splitOn "," names). split; [reflexivity |].
  split; [apply splitOn_not_nil |].
  split; [apply (concat_splitOn ",") | apply splitOn_pieces_free].
Qed.

(** X20: setting [GIT_AUTHORNAMES] to names without commas, joined by
    commas, configures exactly these names, in their order. *)
Theorem joined_names_are_configured (pieces : list string) :
  pieces <> [] ->
  Forall (fun piece => occurs "," piece = false) pieces ->
  ConfigEnv.author (Some (String.concat "," pieces)) = inr pieces.
Proof.
  intros Hne HF. unfold ConfigEnv.author, ConfigEnv.nullish.
  rewrite (splitOn_concat "," pieces Hne HF). reflexivity.
Qed.

Lemma joined_names_are_configured_witness :
  ConfigEnv.author (Some "Luis Casillas,gwitchr,Gwitchr"%string)
  = inr ["Luis Casillas"; "gwitchr"; "Gwitchr"]%string.
Proof.
  apply (joined_names_are_configured
           ["Luis Casillas"; "gwitchr"; "Gwitchr"]%string).
  - discriminate.
  - repeat constructor.
Defined.

Lemma lastTwo_app_two {A : Type} (l : list A) (x y : A) :
  lastTwo (l ++ [x; y]) = [x; y].
Proof.
  unfold lastTwo. rewrite length_app. cbn [List.length].
  replace (List.length l + 2 - 2)%nat with (List.length l + 0)%nat by lia.
  rewrite skipn_app, Nat.add_0_r, skipn_all.
  replace (List.length l - List.length l)%nat with 0%nat by lia.
  reflexivity.
Qed.

(** X21: for a repository URL that ends in [/owner/name], with no slash
    inside [owner] or [name], the repository of the pull request is
    [owner/name], whatever comes before; a URL without any slash is kept
    whole. *)
Theorem repoOf_owner_and_name (before owner name : string) :
  occurs "/" owner = false ->
  occurs "/" name = false ->
  repoOf (before ++ "/" ++ owner ++ "/" ++ name) = (owner ++ "/" ++ name)%string
  /\ repoOf name = name.
Proof.
  intros Ho Hn. unfold repoOf. split.
  - change ("/" ++ owner ++ "/" ++ name)%string
      with (String "/" (owner ++ String "/" name)).
    rewrite splitOn_app, splitOn_app.
    rewrite (splitOn_free "/" owner Ho), (splitOn_free "/" name Hn).
    change ([owner] ++ [name]) with [owner; name].
    rewrite lastTwo_app_two. reflexivity.
  - rewrite (splitOn_free "/" name Hn). reflexivity.
Qed.

Lemma repoOf_owner_and_name_witness :
  repoOf "https://api.github.com/repos/Gwitchr/fillTimesheet"
  = "Gwitchr/fillTimesheet"%string
  /\ repoOf "fillTimesheet" = "fillTimesheet"%string.
Proof.
  apply (repoOf_owner_and_name "https://api.github.com/repos"
           "Gwitchr" "fillTimesheet"); reflexivity.
Defined.

(* ------------------------------------------------------------------ *)
(** ** Collecting the reviews *)

Lemma bodyOr_not_empty (body : option string) :
  bodyOr body "No comment" <> EmptyString.
Proof.
  destruct body as [[|c s]|]; simpl; discriminate.
Qed.

Section ReviewFacts.

Variable tza : Z.
Variables year month : Z.
Variable localizeDate : Z -> string.
Variable githubUsername : string.
Variable fetchReviews : PullRequest.t -> exn + list RawReview.t.

Lemma forEachReview_keeps (P : Review.t -> Prop)
    (pr : PullRequest.t) (prReviews : list RawReview.t) :
  (forall review, collected tza year month localizeDate pr review -> P review) ->
  forall reviews,
    Forall P reviews ->
    Forall P (fst (forEachReview tza year month localizeDate githubUsername pr prReviews reviews)).
Proof.
  intros HP. induction prReviews as [|raw rest IH]; intros reviews HF.
  - exact HF.
  - cbn [forEachReview].
    destruct (RawReview.user raw) as [login|]; [| exact HF].
    destruct (String.eqb login githubUsername
              && isCommitInMonth tza year month (RawReview.submitted_at raw))
      eqn:E; [| apply IH; exact HF].
    destruct (RawReview.submitted_at raw) as [t|]; [| apply IH; exact HF].
    apply IH. apply Forall_app. split; [exact HF |].
    constructor; [| constructor]. apply HP.
    apply andb_true_iff in E. destruct E as [_ E].
    unfold collected. cbn.
    repeat split; try assumption. apply bodyOr_not_empty.
Qed.

Lemma forEachPullRequest_keeps (P : Review.t -> Prop)
    (prs : list PullRequest.t) :
  (forall pr review, In pr prs -> collected tza year month localizeDate pr review -> P review) ->
  forall reviews,
    Forall P reviews ->
    Forall P (fst (forEachPullRequest tza year month localizeDate githubUsername
      fetchReviews prs reviews)).
Proof.
  induction prs as [|pr rest IH]; intros HP reviews HF.
  - exact HF.
  - cbn [forEachPullRequest].
    destruct (fetchReviews pr) as [e | prReviews]; [exact HF |].
    pose proof (forEachReview_keeps P pr prReviews
                  (fun r Hr => HP pr r (or_introl eq_refl) Hr) reviews HF)
      as Hstep.
    destruct (forEachReview tza year month localizeDate githubUsername pr prReviews reviews) as [reviews' [e|]].
    + exact Hstep.
    + apply IH; [| exact Hstep].
      intros pr' r Hin. apply HP. right. exact Hin.
Qed.

(** When every review has a user, the loop over the reviews of a pull
    request throws nothing and adds its entries. *)
Lemma forEachReview_no_throw
    (pr : PullRequest.t) (prReviews : list RawReview.t) :
  Forall (fun raw => RawReview.user raw <> None) prReviews ->
  forall reviews,
    forEachReview tza year month localizeDate githubUsername pr prReviews reviews
    = (reviews ++ reviewEntries tza year month localizeDate githubUsername pr prReviews, None).
Proof.
  induction 1 as [|raw rest Hraw _ IH]; intros reviews.
  - cbn. rewrite app_nil_r. reflexivity.
  - cbn [forEachReview reviewEntries flat_map].
    destruct (RawReview.user raw) as [login|]; [| contradiction].
    destruct (RawReview.submitted_at raw) as [t|].
    + destruct (String.eqb login githubUsername
                && isCommitInMonth tza year month (Some t)).
      * rewrite IH. unfold reviewEntries. rewrite <- app_assoc. reflexivity.
      * rewrite IH. reflexivity.
    + replace (isCommitInMonth tza year month None) with false
        by reflexivity.
      rewrite andb_false_r. rewrite IH. reflexivity.
Qed.

Lemma forEachPullRequest_app (prs1 prs2 : list PullRequest.t) :
  forall reviews,
    forEachPullRequest tza year month localizeDate githubUsername
      fetchReviews (prs1 ++ prs2) reviews
    = match forEachPullRequest tza year month localizeDate githubUsername
      fetchReviews prs1 reviews with
      | (reviews', None) => forEachPullRequest tza year month localizeDate githubUsername
      fetchReviews prs2 reviews'
      | (reviews', Some e) => (reviews', Some e)
      end.
Proof.
  induction prs1 as [|pr rest IH]; intros reviews.
  - reflexivity.
  - cbn [app forEachPullRequest].
    destruct (fetchReviews pr) as [e | prReviews]; [reflexivity |].
    destruct (forEachReview tza year month localizeDate githubUsername pr prReviews reviews) as [reviews' [e|]];
      [reflexivity | apply IH].
Qed.

(** X22: when the response of the search is not ok, no review is
    returned and the error logged is the one of the search, with the
    status text of the response. *)
Theorem failed_search_gives_no_review (response : Response.t) :
  Response.ok response = false ->
  getGithubReviews tza year month localizeDate githubUsername
      fetchReviews (searchPullRequestsAssociatedWithUser response)
  = ([], Some (Error ("Failed to search pull requests: "
                      ++ Response.statusText response)%string)).
Proof.
  intros Hok. unfold searchPullRequestsAssociatedWithUser.
  rewrite Hok. reflexivity.
Qed.

(** X23: the first pull request whose reviews cannot be fetched ends
    the collection: the reviews returned are those collected from the
    pull requests before it, the error logged is its error, and the pull
    requests after it are not looked at. *)
Theorem first_failure_ends_the_collection
    (before rest : list PullRequest.t) (pr : PullRequest.t) (e : exn) :
  snd (getGithubReviews tza year month localizeDate githubUsername
      fetchReviews (inr before)) = None ->
  fetchReviews pr = inl e ->
  getGithubReviews tza year month localizeDate githubUsername
      fetchReviews (inr (before ++ pr :: rest))
  = (fst (getGithubReviews tza year month localizeDate githubUsername
      fetchReviews (inr before)), Some e).
Proof.
  unfold getGithubReviews. intros Hbefore Hpr.
  rewrite forEachPullRequest_app.
  destruct (forEachPullRequest tza year month localizeDate githubUsername
      fetchReviews before []) as [reviews [e'|]];
    [discriminate |].
  cbn [forEachPullRequest fst]. rewrite Hpr. reflexivity.
Qed.

(** X24: every review returned belongs to a pull request of the search
    (its repository and title), has a time value that
    [isCommitInMonth] accepts, shows the text that [localizeDate] gives
    for it, and has a comment that is not empty; when the search threw,
    nothing is returned. *)
Theorem getGithubReviews_entries (search : exn + list PullRequest.t) :
  Forall
    (fun review =>
       exists prs pr,
         search = inr prs /\ In pr prs /\ collected tza year month localizeDate pr review)
    (fst (getGithubReviews tza year month localizeDate githubUsername
      fetchReviews search)).
Proof.
  destruct search as [e | prs]; [constructor |].
  unfold getGithubReviews.
  apply forEachPullRequest_keeps; [| constructor].
  intros pr review Hin Hc. exists prs, pr. repeat split; try assumption;
    apply Hc.
Qed.

(** X25: when the reviews of every pull request are fetched and every
    review has a user, nothing is logged and the reviews returned are,
    pull request after pull request and review after review, those of
    the configured user that [isCommitInMonth] accepts. *)
Theorem getGithubReviews_when_nothing_throws
    (prs : list PullRequest.t)
    (fetched : PullRequest.t -> list RawReview.t) :
  (forall pr, In pr prs ->
     fetchReviews pr = inr (fetched pr)
     /\ Forall (fun raw => RawReview.user raw <> None) (fetched pr)) ->
  getGithubReviews tza year month localizeDate githubUsername
      fetchReviews (inr prs)
  = (flat_map (fun pr => reviewEntries tza year month localizeDate githubUsername pr (fetched pr)) prs, None).
Proof.
  intros Hall. unfold getGithubReviews.
  assert (G : forall reviews,
             forEachPullRequest tza year month localizeDate githubUsername
      fetchReviews prs reviews
             = (reviews
                ++ flat_map (fun pr => reviewEntries tza year month localizeDate githubUsername pr (fetched pr)) prs,
                None)).
  { induction prs as [|pr rest IH]; intros reviews.
    - cbn. rewrite app_nil_r. reflexivity.
    - cbn [forEachPullRequest flat_map].
      destruct (Hall pr (or_introl eq_refl)) as [Hf Hu].
      rewrite Hf, (forEachReview_no_throw pr (fetched pr) Hu).
      rewrite IH by (intros pr' Hin; apply Hall; right; exact Hin).
      rewrite <- app_assoc. reflexivity. }
  apply G.
Qed.

End ReviewFacts.

Lemma failed_search_gives_no_review_witness :
  getGithubReviews 0 2024 2 (fun _ => "March 10, 2024"%string) "Gwitchr"
    exampleFetch
    (searchPullRequestsAssociatedWithUser (Response.mk false "Forbidden" []))
  = ([], Some (Error "Failed to search pull requests: Forbidden")).
Proof.
  apply (failed_search_gives_no_review 0 2024 2
           (fun _ => "March 10, 2024"%string) "Gwitchr" exampleFetch
           (Response.mk false "Forbidden" [])).
  reflexivity.
Defined.

Lemma first_failure_ends_the_collection_witness :
  getGithubReviews 0 2024 2 (fun _ => "March 10, 2024"%string) "Gwitchr"
    exampleFetch
    (inr ([examplePR 1 "Add tests"]
          ++ examplePR 2 "Fix dates" :: [examplePR 1 "Add tests"]))
  = (fst (getGithubReviews 0 2024 2 (fun _ => "March 10, 2024"%string)
            "Gwitchr" exampleFetch (inr [examplePR 1 "Add tests"])),
     Some SyntaxError).
Proof.
  apply first_failure_ends_the_collection; reflexivity.
Defined.

Lemma getGithubReviews_when_nothing_throws_witness :
  getGithubReviews 0 2024 2 (fun _ => "March 10, 2024"%string) "Gwitchr"
    exampleFetch (inr [examplePR 1 "Add tests"; examplePR 3 "Docs"])
  = (flat_map
       (fun pr =>
          reviewEntries 0 2024 2 (fun _ => "March 10, 2024"%string) "Gwitchr"
            pr (exampleFetched pr))
       [examplePR 1 "Add tests"; examplePR 3 "Docs"],
     None).
Proof.
  apply getGithubReviews_when_nothing_throws.
  intros pr [<- | [<- | []]].
  - split; [reflexivity |]. repeat constructor; discriminate.
  - split; [reflexivity | constructor].
Defined.

(* ------------------------------------------------------------------ *)
(** ** From the fetched records to the rows *)

Lemma getCommits_in_month (tza year month : Z) (localizeDate : Z -> string)
    (projectName : string) (log : list LogEntry.t) :
  Forall
    (fun commit =>
       isCommitInMonth tza year month (Some (Commit.rawDate commit)) = true)
    (getCommits tza year month localizeDate projectName log).
Proof.
  unfold getCommits. induction log as [|entry log IH]; [constructor |].
  cbn [flat_map]. apply Forall_app. split; [| exact IH].
  destruct (LogEntry.date entry) as [t|]; [| constructor].
  destruct (isCommitInMonth tza year month (Some t)) eqn:E; [| constructor].
  constructor; [exact E | constructor].
Qed.

(** X26: every row of the timesheet has a time value that
    [isCommitInMonth] accepts for the target month, whatever the logs,
    the outcome of the search and the reviews fetched. *)
Theorem every_row_in_target_month
    (tza year month : Z) (localizeDate : Z -> string)
    (author : list string) (gitClients : list (string * list LogEntry.t))
    (githubUsername : string)
    (fetchReviews : PullRequest.t -> exn + list RawReview.t)
    (search : exn + list PullRequest.t) (durations : list string) :
  Forall
    (fun row => isCommitInMonth tza year month (Some (Row.date row)) = true)
    (allRows
       (allCommits tza year month localizeDate author gitClients)
       (fst (getGithubReviews tza year month localizeDate githubUsername
               fetchReviews search))
       durations).
Proof.
  assert (HC : Forall
                 (fun commit =>
                    isCommitInMonth tza year month
                      (Some (Commit.rawDate commit)) = true)
                 (allCommits tza year month localizeDate author gitClients)).
  { apply allCommits_from; [| constructor].
    intros name log commit Hin. unfold userCommits in Hin.
    apply filter_In in Hin. destruct Hin as [Hin _].
    pose proof (getCommits_in_month tza year month localizeDate name log)
      as HG.
    rewrite Forall_forall in HG. apply HG. exact Hin. }
  assert (HR : Forall
                 (fun review =>
                    isCommitInMonth tza year month
                      (Some (Review.rawDate review)) = true)
                 (fst (getGithubReviews tza year month localizeDate
                         githubUsername fetchReviews search))).
  { destruct search as [e | prs]; [constructor |].
    unfold getGithubReviews.
    apply forEachPullRequest_keeps; [| constructor].
    intros pr review _ Hc. apply Hc. }
  rewrite Forall_forall in HC, HR.
  apply Forall_forall. intros row Hrow.
  apply allRows_origin in Hrow.
  destruct Hrow as [[commit [i [Hi ->]]] | [review [i [Hi ->]]]].
  - apply HC. eapply nth_error_In. exact Hi.
  - apply HR. eapply nth_error_In. exact Hi.
Qed.

(* ------------------------------------------------------------------ *)
(** ** The path of the file written *)

Lemma digits_without_underscore (d : Decimal.uint) :
  occurs "_" (NilEmpty.string_of_uint d) = false.
Proof.
  induction d; simpl; try reflexivity; exact IHd.
Qed.

Lemma showInt_without_underscore (z : Z) :
  occurs "_" (ConfigEnv.showInt z) = false.
Proof.
  unfold ConfigEnv.showInt, NilZero.string_of_int, NilZero.string_of_uint.
  destruct (Z.to_int z) as [d | d]; destruct d; try reflexivity;
    cbn [occurs Ascii.eqb Bool.eqb orb];
    match goal with
    | |- occurs _ (NilEmpty.string_of_uint ?u) = false =>
        apply (digits_without_underscore u)
    end.
Qed.

Lemma Z_to_int_not_nil (z : Z) :
  Z.to_int z <> Decimal.Pos Decimal.Nil
  /\ Z.to_int z <> Decimal.Neg Decimal.Nil.
Proof.
  destruct z as [|p|p]; simpl; split; try discriminate;
    intros E; injection E as E;
    exact (DecimalPos.Unsigned.to_uint_nonnil p E).
Qed.

Lemma showInt_inj (z z' : Z) :
  ConfigEnv.showInt z = ConfigEnv.showInt z' -> z = z'.
Proof.
  unfold ConfigEnv.showInt. intros E.
  apply (f_equal NilZero.int_of_string) in E.
  destruct (Z_to_int_not_nil z) as [P1 N1].
  destruct (Z_to_int_not_nil z') as [P2 N2].
  rewrite !NilZero.isi in E by assumption.
  injection E as E. apply DecimalZ.to_int_inj. exact E.
Qed.

(** Two texts cut at the first occurrence of a character. *)
Lemma split_at_first (c : ascii) (a a' b b' : string) :
  occurs c a = false ->
  occurs c a' = false ->
  (a ++ String c b = a' ++ String c b')%string ->
  a = a' /\ b = b'.
Proof.
  revert a'. induction a as [|x a IH]; intros [|x' a'] Ha Ha' E;
    cbn [append occurs] in *.
  - injection E as E. split; [reflexivity | exact E].
  - injection E as Ex _. subst x'.
    rewrite Ascii.eqb_refl in Ha'. discriminate.
  - injection E as Ex _. subst x.
    rewrite Ascii.eqb_refl in Ha. discriminate.
  - injection E as Ex E. subst x'.
    apply orb_false_iff in Ha. apply orb_false_iff in Ha'.
    destruct (IH a' (proj2 Ha) (proj2 Ha') E) as [-> ->].
    split; reflexivity.
Qed.

Lemma string_app_length (a b : string) :
  String.length (a ++ b) = (String.length a + String.length b)%nat.
Proof.
  induction a as [|x a IH]; simpl; [| rewrite IH]; reflexivity.
Qed.

Lemma string_app_cancel_r (a a' s : string) :
  (a ++ s = a' ++ s)%string -> a = a'.
Proof.
  revert a'. induction a as [|x a IH]; intros [|x' a'] E.
  - reflexivity.
  - apply (f_equal String.length) in E. cbn [append String.length] in E.
    rewrite string_app_length in E. lia.
  - apply (f_equal String.length) in E. cbn [append String.length] in E.
    rewrite string_app_length in E. lia.
  - simpl in E. injection E as -> E. f_equal. apply IH. exact E.
Qed.

(** X27: the path of the file determines the year, the month and the
    name: two runs write to the same path only when their target year,
    their target month and the name of the author are the same. *)
Theorem output_path_determines_month
    (year month year' month' : Z) (AUTHOR AUTHOR' : option string) :
  ConfigEnv.output year month AUTHOR = ConfigEnv.output year' month' AUTHOR'
  -> year = year' /\ month = month'
     /\ ConfigEnv.name AUTHOR = ConfigEnv.name AUTHOR'.
Proof.
  unfold ConfigEnv.output. intros E.
  change ("data/" ++ ?x)%string with
    (String "d" (String "a" (String "t" (String "a" (String "/" x))))) in E.
  injection E as E.
  change ("_" ++ ?x)%string with (String "_" x) in E.
  apply split_at_first in E; try apply showInt_without_underscore.
  destruct E as [Ey E].
  apply split_at_first in E; try apply showInt_without_underscore.
  destruct E as [Em E].
  apply showInt_inj in Ey. apply showInt_inj in Em.
  apply string_app_cancel_r in E.
  split; [exact Ey |]. split; [lia | exact E].
Qed.

Lemma output_path_determines_month_witness :
  2024%Z = 2024%Z /\ 2%Z = 2%Z
  /\ ConfigEnv.name None = ConfigEnv.name (Some "Luis Casillas"%string).
Proof.
  apply (output_path_determines_month 2024 2 2024 2 None
           (Some "Luis Casillas"%string)).
  reflexivity.
Defined.
